(** * Reactylon: parameter-name recovery and the Engine component lifecycle

    A shallow embedding of two source files of the repository:

    - the parameter-name-recovery utility ([getClassConstructorParams],
      [traverse], [getFunctionParams] and their helpers), embedded in
      [Module Params] over a typed fragment of the ESTree syntax that the
      external parser produces;
    - [components/core/Engine.tsx], embedded in [Module Engine] as programs
      of a small trace/state/exception monad: every call into an external
      collaborator (3D engine, scene, physics, XR, DOM, reconciler) is
      recorded in a trace and may throw. *)

From Stdlib Require Import String List Bool Arith Lia QArith.
From Stdlib Require Import Ascii.
Import ListNotations.
Local Open Scope string_scope.
Local Open Scope list_scope.
Close Scope Q_scope.
Set Warnings "-register-all".

(* ===================================================================== *)
(** * Results of fallible JavaScript code *)
(* ===================================================================== *)

Inductive JsError : Type :=
| TypeError (msg : string)          (* property read on undefined / null *)
| ExternalError (what : string).    (* an exception raised by a collaborator *)

Inductive Outcome (A : Type) : Type :=
| Ok (a : A)
| Throw (e : JsError).
Arguments Ok {A} a.
Arguments Throw {A} e.

(* ===================================================================== *)
(** * The parameter-name-recovery utility *)
(* ===================================================================== *)

Module Params.

(** The fragment of ESTree the utility inspects.  [parse] (acorn) is an
    external library: the functions below start from the tree it returns. *)
Inductive Node : Type :=
| Identifier (name : string)
| AssignmentPattern (left right : Node)
| RestElement (argument : Node)
| MemberExpression (object property : Node)
| ObjectPattern (properties : list Node)
| ArrayPattern (elements : list Node)
| Property (key value : Node)
| Literal (raw : string)
| FunctionDeclaration (id : Node) (params : list Node) (body : Node)
| FunctionExpression (id : option Node) (params : list Node) (body : Node)
| ArrowFunctionExpression (params : list Node) (body : Node)
| ExpressionStatement (expression : Node)
| BlockStatement (body : list Node)
| ClassDeclaration (id : Node) (superClass : option Node) (body : Node)
| ClassBody (body : list Node)
| MethodDefinition (kind : string) (key value : Node)
| PropertyDefinition (key : Node) (value : option Node)
| Program (body : list Node).

(** [node.type] *)
Definition node_type (n : Node) : string :=
  match n with
  | Identifier _ => "Identifier"
  | AssignmentPattern _ _ => "AssignmentPattern"
  | RestElement _ => "RestElement"
  | MemberExpression _ _ => "MemberExpression"
  | ObjectPattern _ => "ObjectPattern"
  | ArrayPattern _ => "ArrayPattern"
  | Property _ _ => "Property"
  | Literal _ => "Literal"
  | FunctionDeclaration _ _ _ => "FunctionDeclaration"
  | FunctionExpression _ _ _ => "FunctionExpression"
  | ArrowFunctionExpression _ _ => "ArrowFunctionExpression"
  | ExpressionStatement _ => "ExpressionStatement"
  | BlockStatement _ => "BlockStatement"
  | ClassDeclaration _ _ _ => "ClassDeclaration"
  | ClassBody _ => "ClassBody"
  | MethodDefinition _ _ _ => "MethodDefinition"
  | PropertyDefinition _ _ => "PropertyDefinition"
  | Program _ => "Program"
  end.

(** What a property read [n.body] evaluates to. *)
Inductive JsProp : Type :=
| PNode (n : Node)
| PArray (l : list Node)
| PUndefined.

Definition prop_body (n : Node) : JsProp :=
  match n with
  | FunctionDeclaration _ _ b => PNode b
  | FunctionExpression _ _ b => PNode b
  | ArrowFunctionExpression _ b => PNode b
  | BlockStatement l => PArray l
  | ClassDeclaration _ _ b => PNode b
  | ClassBody l => PArray l
  | Program l => PArray l
  | _ => PUndefined
  end.

(** [console.warn] output is collected next to the value. *)
Definition Logged (A : Type) : Type := (list string * A)%type.

Definition pure {A} (a : A) : Logged A := ([], a).
Definition warn {A} (msg : string) (a : A) : Logged A := ([msg], a).

(** [getDestructuredParameterName] *)
Fixpoint getDestructuredParameterName (pattern : Node) : option string :=
  match pattern with
  | Identifier name => Some name
  | MemberExpression _ property => getDestructuredParameterName property
  | _ => None
  end.

(** [getRestParameterName] *)
Definition getRestParameterName (argument : Node) : option string :=
  match argument with
  | Identifier name => Some name
  | _ => None
  end.

(** The callback [traverse] maps over [node.params].  In this syntax an
    [Identifier] is the only node whose [name] is a string, so the first
    test of the source ([typeof param.name === 'string']) and its fourth
    ([param.type === 'Identifier']) select the same nodes. *)
Definition paramName (param : Node) : Logged (option string) :=
  match param with
  | Identifier name => pure (Some name)
  | AssignmentPattern lhs _ => pure (getDestructuredParameterName lhs)
  | RestElement argument => pure (getRestParameterName argument)
  | _ => warn ("Unknown parameter type: " ++ node_type param) None
  end.

(** [Array.prototype.map] with a logging callback: left to right. *)
Fixpoint mapL {A B} (f : A -> Logged B) (l : list A) : Logged (list B) :=
  match l with
  | [] => pure []
  | x :: l' =>
      let '(w1, y) := f x in
      let '(w2, ys) := mapL f l' in
      (w1 ++ w2, y :: ys)
  end.

(** [traverse]: [None] is the [null] returned for a node that is not a
    function. *)
Definition traverse (node : Node) : Logged (option (list (option string))) :=
  match node with
  | FunctionDeclaration _ params _
  | FunctionExpression _ params _ =>
      let '(w, names) := mapL paramName params in (w, Some names)
  | _ => pure None
  end.

(** [(parameters || []).filter(param => param !== null)] *)
Fixpoint removeNull (l : list (option string)) : list string :=
  match l with
  | [] => []
  | Some s :: l' => s :: removeNull l'
  | None :: l' => removeNull l'
  end.

Definition orEmpty (parameters : option (list (option string)))
  : list (option string) :=
  match parameters with
  | Some l => l
  | None => []
  end.

(** [getFunctionParams], from the parsed program.  [ast.body[0]] is
    [undefined] for an empty program, and [traverse] then reads
    [node.type] of [undefined]. *)
Definition getFunctionParams (ast : Node) : Logged (Outcome (list string)) :=
  match prop_body ast with
  | PArray (n0 :: _) =>
      let '(w, parameters) := traverse n0 in
      (w, Ok (removeNull (orEmpty parameters)))
  | PArray [] =>
      pure (Throw (TypeError "Cannot read properties of undefined (reading 'type')"))
  | _ =>
      pure (Throw (TypeError "Cannot read properties of undefined (reading '0')"))
  end.

(** [x => x.type === 'MethodDefinition' && x.kind === 'constructor'] *)
Definition isConstructorMethod (x : Node) : bool :=
  match x with
  | MethodDefinition kind _ _ => String.eqb kind "constructor"
  | _ => false
  end.

(** [m.value] *)
Definition prop_value (m : Node) : option Node :=
  match m with
  | MethodDefinition _ _ v => Some v
  | Property _ v => Some v
  | PropertyDefinition _ v => v
  | _ => None
  end.

(** [getClassConstructorParams], from the parsed program:
    [traverse(ast.body[0].body.body.find(...).value)]. *)
Definition getClassConstructorParams (ast : Node)
  : Logged (Outcome (list string)) :=
  match prop_body ast with
  | PArray (n0 :: _) =>
      match prop_body n0 with
      | PNode b =>
          match prop_body b with
          | PArray members =>
              match find isConstructorMethod members with
              | Some m =>
                  match prop_value m with
                  | Some v =>
                      let '(w, parameters) := traverse v in
                      (w, Ok (removeNull (orEmpty parameters)))
                  | None =>
                      pure (Throw (TypeError "Cannot read properties of undefined (reading 'type')"))
                  end
              | None =>
                  pure (Throw (TypeError "Cannot read properties of undefined (reading 'value')"))
              end
          | _ =>
              pure (Throw (TypeError "find is not a function"))
          end
      | PArray _ =>
          pure (Throw (TypeError "Cannot read properties of undefined (reading 'find')"))
      | PUndefined =>
          pure (Throw (TypeError "Cannot read properties of undefined (reading 'body')"))
      end
  | PArray [] =>
      pure (Throw (TypeError "Cannot read properties of undefined (reading 'body')"))
  | _ =>
      pure (Throw (TypeError "Cannot read properties of undefined (reading '0')"))
  end.

(** A parameter that none of [traverse]'s tests recognises. *)
Definition unknownParameterType (param : Node) : bool :=
  match param with
  | Identifier _ | AssignmentPattern _ _ | RestElement _ => false
  | _ => true
  end.

(** A parsed function source: what [traverse] accepts. *)
Definition functionNode (n : Node) : option (list Node) :=
  match n with
  | FunctionDeclaration _ params _
  | FunctionExpression _ params _ => Some params
  | _ => None
  end.

(** ** Concrete inputs used in examples *)

(** A function whose second parameter is an object pattern:
    [function f(a, {b}, c) {}]. *)
Definition exampleFunction : Node :=
  FunctionDeclaration (Identifier "f")
    [Identifier "a";
     ObjectPattern [Property (Identifier "b") (Identifier "b")];
     Identifier "c"]
    (BlockStatement []).

(** [class A { m(x) {} }] *)
Definition exampleClass : Node :=
  ClassDeclaration (Identifier "A") None
    (ClassBody
       [MethodDefinition "method" (Identifier "m")
          (FunctionExpression None [Identifier "x"] (BlockStatement []))]).

End Params.

(* ===================================================================== *)
(** * The Engine component *)
(* ===================================================================== *)

Module Engine.

(** ** Values supplied by the caller or by collaborators

    Objects the component only passes along are identified by a tag. *)

Inductive HTMLCanvasElement : Type := canvasElement (id : string).
Inductive EngineOptions : Type := engineOptionsBag (tag : nat).
Inductive SceneOptions : Type := sceneOptionsBag (tag : nat).
Inductive WebXRDefaultExperienceOptions : Type := xrOptionsBag (tag : nat).
Inductive WebXRDefaultExperience : Type := xrExperienceObj (tag : nat).
Inductive LoaderFC : Type := loaderComponent (tag : nat).
Inductive SceneReadyFn : Type := sceneReadyFn (tag : nat).
Inductive HavokModule : Type := havokInstance (tag : nat).
Inductive Camera : Type := cameraObj (tag : nat).
Inductive ReactChildren : Type := childrenProp (tag : nat).

(** [new Vector3(x, y, z)]; a number literal is kept as the decimal
    fraction it denotes. *)
Inductive Vector3 : Type := mkVector3 (x y z : Q).

(** [new BabylonEngine(canvas, antialias, engineOptions, adaptToDeviceRatio)] *)
Inductive BabylonEngine : Type :=
  mkBabylonEngine (canvas : HTMLCanvasElement) (antialias : option bool)
                  (engineOptions : option EngineOptions)
                  (adaptToDeviceRatio : option bool).

(** [new CustomLoadingScreen(canvas, loader)] *)
Inductive CustomLoadingScreen : Type :=
  mkCustomLoadingScreen (canvas : HTMLCanvasElement) (loader : LoaderFC).

(** [new Scene(engine, sceneOptions)] *)
Inductive Scene : Type :=
  mkScene (engine : BabylonEngine) (sceneOptions : option SceneOptions).

(** A physics plugin: one the caller supplies, or
    [new HavokPlugin(useDeltaTime, havokModule)]. *)
Inductive PhysicsPlugin : Type :=
| callerPlugin (tag : nat)
| HavokPlugin (useDeltaTime : bool) (havok : HavokModule).

(** [new GUI3DManager(scene)] *)
Inductive GUI3DManager : Type := mkGUI3DManager (scene : Scene).

(** ** Props *)

Record PhysicsOptions : Type := {
  gravity : option Vector3;
  plugin : option PhysicsPlugin
}.

Record EngineConfig : Type := {
  canvasId : string;
  antialias : option bool;
  engineOptions : option EngineOptions;
  adaptToDeviceRatio : option bool;
  loader : option LoaderFC
}.

Record SceneConfig : Type := {
  sceneOptions : option SceneOptions;
  isInteractiveInspector : option bool;
  onSceneReady : option SceneReadyFn;
  isGui3DManager : option bool;
  xrDefaultExperienceOptions : option WebXRDefaultExperienceOptions;
  physicsOptions : option PhysicsOptions
}.

Record EngineProps : Type := {
  engine : EngineConfig;
  scene : option SceneConfig;
  children : ReactChildren
}.

(** [sceneProps || {}]: every field absent. *)
Definition emptySceneConfig : SceneConfig := {|
  sceneOptions := None;
  isInteractiveInspector := None;
  onSceneReady := None;
  isGui3DManager := None;
  xrDefaultExperienceOptions := None;
  physicsOptions := None
|}.

(** A destructuring default [x = d]. *)
Definition withDefault {A} (d : A) (x : option A) : A :=
  match x with
  | Some a => a
  | None => d
  end.

(** ** Contexts, root container, UI tree *)

Record EngineCanvasContextType : Type := {
  ctx_engine : option BabylonEngine;
  ctx_canvas : option HTMLCanvasElement
}.

Record SceneContextType : Type := {
  ctx_scene : option Scene;
  sceneReady : bool;
  xrExperience : option WebXRDefaultExperience
}.

(** [createContext] defaults. *)
Definition EngineCanvasContext_default : EngineCanvasContextType :=
  {| ctx_engine := None; ctx_canvas := None |}.
Definition SceneContext_default : SceneContextType :=
  {| ctx_scene := None; sceneReady := false; xrExperience := None |}.

Inductive ReactNode : Type :=
| ChildrenNode (c : ReactChildren)
| EngineCanvasContextProvider (value : EngineCanvasContextType) (child : ReactNode)
| SceneContextProvider (value : SceneContextType) (child : ReactNode).

(** The root container literal of the source ([RootContainer] of [@types]):
    [{ scene, rootInstance: { hostInstance, metadata: { children,
    gui3DManager }, parent } }]. *)
Inductive Instance : Type :=
  mkInstance (hostInstance : Scene) (metadata : Metadata) (parent : option Instance)
with Metadata : Type :=
  mkMetadata (meta_children : list Instance) (gui3DManager : option GUI3DManager).

Record RootContainer : Type := {
  rc_scene : Scene;
  rootInstance : Instance
}.

(** ** Calls into collaborators *)

Inductive Listener : Type :=
| onResizeWindow          (* () => engine.current!.resize() *)
| onInspectorKeydown.     (* the Ctrl+I handler *)

Inductive Call : Type :=
| NewBabylonEngine (e : BabylonEngine)
| SetLoadingScreen (e : BabylonEngine) (l : CustomLoadingScreen)
| RunRenderLoop (e : BabylonEngine)
| WindowAddEventListener (type : string) (l : Listener)
| WindowRemoveEventListener (type : string) (l : Listener)
| NewScene (s : Scene)
| CallOnSceneReady (f : SceneReadyFn) (s : Scene)
| HavokPhysics (locateFile : string -> string)
| NewHavokPlugin (p : PhysicsPlugin)
| EnablePhysics (s : Scene) (gravity : Vector3) (plugin : PhysicsPlugin)
| CreateDefaultXRExperienceAsync (s : Scene) (o : WebXRDefaultExperienceOptions)
| DocumentAddEventListener (type : string) (l : Listener) (useCapture : bool)
| NewGUI3DManager (g : GUI3DManager)
| ReactylonRender (element : option ReactNode) (container : option RootContainer)
| EngineResize (e : BabylonEngine)
| EngineDispose (e : BabylonEngine)
| SceneRender (s : Scene)
| ConsoleWarn (msg : string).

(** The collaborators: which calls throw (or reject), and what the two
    awaited promises resolve to. *)
Record Env : Type := {
  throws : Call -> bool;
  havokModule : HavokModule;
  xrResult : WebXRDefaultExperience
}.

(** The same collaborators when no call throws. *)
Definition quiet (env : Env) : Env := {|
  throws := fun _ => false;
  havokModule := havokModule env;
  xrResult := xrResult env
|}.

(** The [useRef] cells of the component. *)
Record Refs : Type := {
  engine_current : option BabylonEngine;
  scene_current : option Scene;
  rootContainer_current : option RootContainer
}.

Definition initialRefs : Refs := {|
  engine_current := None;
  scene_current := None;
  rootContainer_current := None
|}.

(** ** The monad: a trace of calls, the refs, and a value or an exception *)

Record Run (A : Type) : Type := mkRun {
  trace : list Call;
  refs : Refs;
  outcome : Outcome A
}.
Arguments mkRun {A} trace refs outcome.
Arguments trace {A} r.
Arguments refs {A} r.
Arguments outcome {A} r.

Definition M (A : Type) : Type := Env -> Refs -> Run A.

Definition ret {A} (a : A) : M A := fun _ r => mkRun [] r (Ok a).

Definition bind {A B} (m : M A) (k : A -> M B) : M B :=
  fun env r =>
    let r1 := m env r in
    match outcome r1 with
    | Ok a =>
        let r2 := k a env (refs r1) in
        mkRun (trace r1 ++ trace r2) (refs r2) (outcome r2)
    | Throw e => mkRun (trace r1) (refs r1) (Throw e)
    end.

Declare Scope engine_scope.
Delimit Scope engine_scope with engine.
Notation "x <- m ;; k" := (bind m (fun x => k))
  (at level 61, m at next level, right associativity) : engine_scope.
Notation "m ;; k" := (bind m (fun _ => k))
  (at level 61, right associativity) : engine_scope.
Local Open Scope engine_scope.

(** A call into a collaborator: recorded, and it may throw. *)
Definition call (c : Call) : M unit :=
  fun env r =>
    mkRun [c] r (if throws env c then Throw (ExternalError "call") else Ok tt).

(** [console.warn]: recorded, never throws. *)
Definition consoleWarn (msg : string) : M unit :=
  fun _ r => mkRun [ConsoleWarn msg] r (Ok tt).

Definition throwError {A} (e : JsError) : M A :=
  fun _ r => mkRun [] r (Throw e).

(** [await promise]: the call that returns the promise is recorded and a
    rejection is thrown at the [await]; otherwise the value the promise
    resolves to is read from the collaborators. *)
Definition await {A} (c : Call) (resolved : Env -> A) : M A :=
  bind (call c) (fun _ env r => mkRun [] r (Ok (resolved env))).
Definition getRefs : M Refs := fun _ r => mkRun [] r (Ok r).
Definition putRefs (r' : Refs) : M unit := fun _ _ => mkRun [] r' (Ok tt).

Definition set_engine_current (v : option BabylonEngine) : M unit :=
  r <- getRefs ;;
  putRefs {| engine_current := v;
             scene_current := scene_current r;
             rootContainer_current := rootContainer_current r |}.

Definition set_scene_current (v : option Scene) : M unit :=
  r <- getRefs ;;
  putRefs {| engine_current := engine_current r;
             scene_current := v;
             rootContainer_current := rootContainer_current r |}.

Definition set_rootContainer_current (v : option RootContainer) : M unit :=
  r <- getRefs ;;
  putRefs {| engine_current := engine_current r;
             scene_current := scene_current r;
             rootContainer_current := v |}.

(** [engine.current!.x]: the non-null assertion is erased by the compiler,
    so a null reference fails at the property read. *)
Definition engine_current_nonnull : M BabylonEngine :=
  r <- getRefs ;;
  match engine_current r with
  | Some e => ret e
  | None => throwError (TypeError "Cannot read properties of null")
  end.

(** [when c m]: [if (c) { m }] *)
Definition when (c : bool) (m : M unit) : M unit :=
  if c then m else ret tt.

(** [forEach] with a callback that may throw. *)
Fixpoint forEach {A} (f : A -> M unit) (l : list A) : M unit :=
  match l with
  | [] => ret tt
  | x :: l' => f x ;; forEach f l'
  end.

(** ** The render loop *)

(** What the render loop reads of a scene owned by the engine. *)
Record SceneState : Type := {
  scene_obj : Scene;
  activeCamera : option Camera;
  cameras : option (list Camera)
}.

Definition isNull {A} (x : option A) : bool :=
  match x with
  | Some _ => false
  | None => true
  end.

(** [scene.cameras?.length > 0]: [undefined > 0] is false. *)
Definition hasCameras (s : SceneState) : bool :=
  match cameras s with
  | Some l => Nat.ltb 0 (length l)
  | None => false
  end.

(** The body of the [forEach] callback. *)
Definition renderScene (s : SceneState) : M unit :=
  when (isNull (activeCamera s)) (consoleWarn "no active camera..") ;;
  when (hasCameras s) (call (SceneRender (scene_obj s))).

(** The callback given to [runRenderLoop]; [scenes] is the engine's
    [scenes] array at the time of the frame. *)
Definition renderLoopCallback (scenes : BabylonEngine -> list SceneState) : M unit :=
  e <- engine_current_nonnull ;;
  forEach renderScene (scenes e).

(** [onResizeWindow] *)
Definition runOnResizeWindow : M unit :=
  e <- engine_current_nonnull ;;
  call (EngineResize e).

(** ** Initialization *)

(** [locateFile: file => `https://preview.babylonjs.com/havok/${file}`] *)
Definition locateFile (file : string) : string :=
  "https://preview.babylonjs.com/havok/" ++ file.

(** [new Vector3(0, -9.8, 0)] *)
Definition defaultGravity : Vector3 := mkVector3 0 (Qmake (-98) 10) 0.

(** The cleanup closure [initializeScene] returns. *)
Definition cleanup : M unit :=
  call (WindowRemoveEventListener "resize" onResizeWindow) ;;
  e <- engine_current_nonnull ;;
  call (EngineDispose e) ;;
  r <- getRefs ;;
  call (ReactylonRender None (rootContainer_current r)) ;;
  set_rootContainer_current None.

(** [// enable physics].  The arguments of [enablePhysics] are evaluated
    left to right: the gravity vector, then the plugin, whose default
    awaits the Havok module. *)
Definition enablePhysicsStep (s : Scene) (physicsOptions : option PhysicsOptions)
  : M unit :=
  match physicsOptions with
  | Some po =>
      let g := withDefault defaultGravity (gravity po) in
      p <- match plugin po with
           | Some p => ret p
           | None =>
               h <- await (HavokPhysics locateFile) havokModule ;;
               let p := HavokPlugin true h in
               call (NewHavokPlugin p) ;;
               ret p
           end ;;
      call (EnablePhysics s g p)
  | None => ret tt
  end.

(** [// enable xr experience] *)
Definition xrExperienceStep (s : Scene)
    (xrOptions : option WebXRDefaultExperienceOptions)
  : M (option WebXRDefaultExperience) :=
  match xrOptions with
  | Some o =>
      x <- await (CreateDefaultXRExperienceAsync s o) xrResult ;;
      ret (Some x)
  | None => ret None
  end.

(** [isGui3DManager ? new GUI3DManager(scene.current) : undefined] *)
Definition gui3DManagerStep (s : Scene) (isGui3DManager : bool)
  : M (option GUI3DManager) :=
  if isGui3DManager
  then call (NewGUI3DManager (mkGUI3DManager s)) ;; ret (Some (mkGUI3DManager s))
  else ret None.

(** The tree handed to the reconciler. *)
Definition providers (e : BabylonEngine) (canvas : HTMLCanvasElement) (s : Scene)
    (xr : option WebXRDefaultExperience) (c : ReactChildren) : ReactNode :=
  EngineCanvasContextProvider
    {| ctx_engine := Some e; ctx_canvas := Some canvas |}
    (SceneContextProvider
       {| ctx_scene := Some s; sceneReady := true; xrExperience := xr |}
       (ChildrenNode c)).

(** [initializeScene].  [engine.current] and [scene.current] are written
    here and by nothing else, so the values just stored stand for the
    later reads of the two refs. *)
Definition initializeScene (canvasRef_current : option HTMLCanvasElement)
    (props : EngineProps) : M (option (M unit)) :=
  let engineProps := engine props in
  let sceneProps := withDefault emptySceneConfig (scene props) in
  match canvasRef_current with
  | Some canvas =>
      (* ENGINE *)
      let e := mkBabylonEngine canvas (antialias engineProps)
                 (engineOptions engineProps) (adaptToDeviceRatio engineProps) in
      call (NewBabylonEngine e) ;;
      set_engine_current (Some e) ;;
      match loader engineProps with
      | Some l => call (SetLoadingScreen e (mkCustomLoadingScreen canvas l))
      | None => ret tt
      end ;;
      call (RunRenderLoop e) ;;
      call (WindowAddEventListener "resize" onResizeWindow) ;;
      (* SCENE *)
      let s := mkScene e (sceneOptions sceneProps) in
      call (NewScene s) ;;
      set_scene_current (Some s) ;;
      match onSceneReady sceneProps with
      | Some f => call (CallOnSceneReady f s)
      | None => ret tt
      end ;;
      enablePhysicsStep s (physicsOptions sceneProps) ;;
      xr <- xrExperienceStep s (xrDefaultExperienceOptions sceneProps) ;;
      when (withDefault false (isInteractiveInspector sceneProps))
           (call (DocumentAddEventListener "keydown" onInspectorKeydown false)) ;;
      (* RECONCILER *)
      gui <- gui3DManagerStep s (withDefault true (isGui3DManager sceneProps)) ;;
      let rc := {| rc_scene := s;
                   rootInstance := mkInstance s (mkMetadata [] gui) None |} in
      set_rootContainer_current (Some rc) ;;
      call (ReactylonRender (Some (providers e canvas s xr (children props)))
                            (Some rc)) ;;
      ret (Some cleanup)
  | None => ret None
  end.

(** The [useEffect] callback: it starts [initializeScene()] and returns
    nothing, so the effect has no destructor; a rejection of the promise
    is not an exception of the callback. *)
Definition effectCallback (canvasRef_current : option HTMLCanvasElement)
    (props : EngineProps) : M (option (M unit)) :=
  fun env r =>
    let r1 := initializeScene canvasRef_current props env r in
    mkRun (trace r1) (refs r1) (Ok None).

(** What the owning scope runs on teardown: the effect's destructor, if
    the effect returned one. *)
Definition runDestructor (destructor : option (M unit)) : M unit :=
  match destructor with
  | Some d => d
  | None => ret tt
  end.

(** ** Reading traces *)

(** The calls at which [initializeScene] suspends ([await]). *)
Definition isAwait (c : Call) : bool :=
  match c with
  | HavokPhysics _ | CreateDefaultXRExperienceAsync _ _ => true
  | _ => false
  end.

Definition isSceneReadyCall (c : Call) : bool :=
  match c with
  | CallOnSceneReady _ _ => true
  | _ => false
  end.

(** Physics enablement: the module load, the plugin, [enablePhysics]. *)
Definition isPhysicsCall (c : Call) : bool :=
  match c with
  | HavokPhysics _ | NewHavokPlugin _ | EnablePhysics _ _ _ => true
  | _ => false
  end.

Definition isXRCall (c : Call) : bool :=
  match c with
  | CreateDefaultXRExperienceAsync _ _ => true
  | _ => false
  end.

Definition isRemoveResizeListener (c : Call) : bool :=
  match c with
  | WindowRemoveEventListener type l =>
      String.eqb type "resize" &&
      match l with onResizeWindow => true | _ => false end
  | _ => false
  end.

Definition isUnmount (c : Call) : bool :=
  match c with
  | ReactylonRender None _ => true
  | _ => false
  end.

Definition isDispose (c : Call) : bool :=
  match c with
  | EngineDispose _ => true
  | _ => false
  end.

(** [noneAfter P Q t]: in [t], no [P] call comes at or after a [Q] call's
    position, that is, every [P] call strictly precedes every [Q] call. *)
Fixpoint noneAfter (P Q : Call -> bool) (t : list Call) : bool :=
  match t with
  | [] => true
  | c :: t' =>
      (negb (Q c) || (negb (P c) && forallb (fun d => negb (P d)) t'))
      && noneAfter P Q t'
  end.

Definition isHavokLoad (c : Call) : bool :=
  match c with
  | HavokPhysics _ => true
  | _ => false
  end.

Definition isEnablePhysics (c : Call) : bool :=
  match c with
  | EnablePhysics _ _ _ => true
  | _ => false
  end.

Definition isNewGUI3DManager (c : Call) : bool :=
  match c with
  | NewGUI3DManager _ => true
  | _ => false
  end.

Definition isMount (c : Call) : bool :=
  match c with
  | ReactylonRender (Some _) _ => true
  | _ => false
  end.

(** [precededFrom seen P Q t]: every [Q] call of [t] has a [P] call
    strictly before it ([seen]: one came before [t]). *)
Fixpoint precededFrom (seen : bool) (P Q : Call -> bool) (t : list Call) : bool :=
  match t with
  | [] => true
  | c :: t' => (negb (Q c) || seen) && precededFrom (seen || P c) P Q t'
  end.

(** [everyPrecededBy P Q t]: each [Q] call of [t] comes after some [P]
    call of [t]. *)
Definition everyPrecededBy (P Q : Call -> bool) (t : list Call) : Prop :=
  forall j b,
    nth_error t j = Some b -> Q b = true ->
    exists i a, i < j /\ nth_error t i = Some a /\ P a = true.

(** [allBefore P Q t]: every [P] call of [t] comes strictly before every
    [Q] call of [t]. *)
Definition allBefore (P Q : Call -> bool) (t : list Call) : Prop :=
  forall i j a b,
    nth_error t i = Some a -> nth_error t j = Some b ->
    P a = true -> Q b = true -> i < j.

Definition neverThrows (env : Env) : Prop := forall c, throws env c = false.

(** ** The objects an initialization constructs, as functions of its inputs *)

(** [sceneProps || {}] *)
Definition sceneConfigOf (props : EngineProps) : SceneConfig :=
  withDefault emptySceneConfig (scene props).

Definition engineOf (canvas : HTMLCanvasElement) (props : EngineProps)
  : BabylonEngine :=
  mkBabylonEngine canvas (antialias (engine props))
    (engineOptions (engine props)) (adaptToDeviceRatio (engine props)).

Definition sceneOf (canvas : HTMLCanvasElement) (props : EngineProps) : Scene :=
  mkScene (engineOf canvas props) (sceneOptions (sceneConfigOf props)).

Definition gui3DManagerOf (canvas : HTMLCanvasElement) (props : EngineProps)
  : option GUI3DManager :=
  if withDefault true (isGui3DManager (sceneConfigOf props))
  then Some (mkGUI3DManager (sceneOf canvas props))
  else None.

Definition rootContainerOf (canvas : HTMLCanvasElement) (props : EngineProps)
  : RootContainer :=
  {| rc_scene := sceneOf canvas props;
     rootInstance :=
       mkInstance (sceneOf canvas props)
                  (mkMetadata [] (gui3DManagerOf canvas props)) None |}.

(** The XR experience an initialization holds once it reaches the mount. *)
Definition xrExperienceOf (env : Env) (props : EngineProps)
  : option WebXRDefaultExperience :=
  match xrDefaultExperienceOptions (sceneConfigOf props) with
  | Some _ => Some (xrResult env)
  | None => None
  end.

(** ** How exceptions shape a run

    [Lawful m]: a run of [m] that returns is the run the quiet
    collaborators give, and none of its calls threw; a run that throws is
    cut right after the call that threw, and is a prefix of the quiet run. *)
Definition Lawful {A} (m : M A) : Prop :=
  forall env r,
    match outcome (m env r) with
    | Ok _ =>
        m env r = m (quiet env) r /\
        Forall (fun c => throws env c = false) (trace (m env r))
    | Throw _ =>
        exists pre c suf,
          trace (m env r) = pre ++ [c] /\
          trace (m (quiet env) r) = trace (m env r) ++ suf /\
          Forall (fun c => throws env c = false) pre /\
          throws env c = true
    end.

(** ** Concrete inputs used in examples *)

Definition quietEnv : Env := {|
  throws := fun _ => false;
  havokModule := havokInstance 0;
  xrResult := xrExperienceObj 0
|}.

Definition canvas1 : HTMLCanvasElement := canvasElement "c1".

Definition engineConfig1 : EngineConfig := {|
  canvasId := "c1";
  antialias := Some true;
  engineOptions := None;
  adaptToDeviceRatio := None;
  loader := None
|}.

Definition engine1 : BabylonEngine :=
  mkBabylonEngine canvas1 (Some true) None None.

Definition scene1 : Scene := mkScene engine1 None.

(** [<Engine engine={{canvasId: 'c1', antialias: true}}>] *)
Definition propsPlain : EngineProps := {|
  engine := engineConfig1;
  scene := None;
  children := childrenProp 0
|}.

(** The same with physics (all defaults), XR and the scene-ready callback. *)
Definition propsFull : EngineProps := {|
  engine := engineConfig1;
  scene := Some {|
    sceneOptions := None;
    isInteractiveInspector := None;
    onSceneReady := Some (sceneReadyFn 0);
    isGui3DManager := None;
    xrDefaultExperienceOptions := Some (xrOptionsBag 0);
    physicsOptions := Some {| gravity := None; plugin := None |}
  |};
  children := childrenProp 0
|}.

(** A scene with a camera attached and no active camera. *)
Definition sceneWithInactiveCamera : SceneState := {|
  scene_obj := scene1;
  activeCamera := None;
  cameras := Some [cameraObj 0]
|}.

(** A scene with no camera at all. *)
Definition sceneWithoutCamera : SceneState := {|
  scene_obj := scene1;
  activeCamera := None;
  cameras := Some []
|}.

Definition refsWithEngine : Refs := {|
  engine_current := Some engine1;
  scene_current := Some scene1;
  rootContainer_current := None
|}.

End Engine.

(* ===================================================================== *)
(** * Parameters whose name the utility recovers *)
(* ===================================================================== *)

Module ParamSyntax.
Import Params.

(** The three parameter forms with an identifier as their target:
    [x], [x = default] and [...x]. *)
Inductive NamedParam : Type :=
| PlainParam (name : string)
| DefaultParam (name : string) (default : Node)
| RestParam (name : string).

Definition namedParamNode (p : NamedParam) : Node :=
  match p with
  | PlainParam name => Identifier name
  | DefaultParam name default => AssignmentPattern (Identifier name) default
  | RestParam name => RestElement (Identifier name)
  end.

Definition namedParamName (p : NamedParam) : string :=
  match p with
  | PlainParam name | DefaultParam name _ | RestParam name => name
  end.

(** A parameter for which [traverse] yields [null]. *)
Definition hasNoName (param : Node) : bool :=
  match snd (paramName param) with
  | Some _ => false
  | None => true
  end.

(** A destructuring target [getDestructuredParameterName] knows: an
    identifier, or a member expression whose property is one it knows. *)
Fixpoint knownPattern (pattern : Node) : bool :=
  match pattern with
  | Identifier _ => true
  | MemberExpression _ property => knownPattern property
  | _ => false
  end.

(** A parameter of a shape from which no name is recovered, read off the
    syntax: a node that is not an identifier, a default-valued parameter
    or a rest parameter; a default-valued parameter whose target is not a
    known pattern; a rest parameter whose argument is not an identifier. *)
Definition unrecognisedShape (param : Node) : bool :=
  match param with
  | Identifier _ => false
  | AssignmentPattern lhs _ => negb (knownPattern lhs)
  | RestElement (Identifier _) => false
  | RestElement _ => true
  | _ => true
  end.

(** [function f({a} = b, ...[c]) {}] *)
Definition exampleSilentFunction : Node :=
  FunctionDeclaration (Identifier "f")
    [AssignmentPattern
       (ObjectPattern [Property (Identifier "a") (Identifier "a")])
       (Identifier "b");
     RestElement (ArrayPattern [Identifier "c"])]
    (BlockStatement []).

(** [({a}) => {}], an expression statement. *)
Definition exampleArrowSource : Node :=
  ExpressionStatement
    (ArrowFunctionExpression
       [ObjectPattern [Property (Identifier "a") (Identifier "a")]]
       (BlockStatement [])).

End ParamSyntax.

(* ===================================================================== *)
(** * String helpers of the utility file *)
(* ===================================================================== *)

Module Helpers.

(** A string is a sequence of code units.  [toUpperCase] and
    [toLowerCase] are the host's; on an ASCII code unit they exchange
    [a]-[z] and [A]-[Z] and change nothing else, which is what the two
    functions below do.  Code units from 128 on are left as they are here,
    so the properties proved are stated for a first code unit below 128. *)
Definition isLowerLetter (c : ascii) : bool :=
  ((97 <=? nat_of_ascii c) && (nat_of_ascii c <=? 122))%nat.

Definition isUpperLetter (c : ascii) : bool :=
  ((65 <=? nat_of_ascii c) && (nat_of_ascii c <=? 90))%nat.

Definition upperUnit (c : ascii) : ascii :=
  if isLowerLetter c then ascii_of_nat (nat_of_ascii c - 32) else c.

Definition lowerUnit (c : ascii) : ascii :=
  if isUpperLetter c then ascii_of_nat (nat_of_ascii c + 32) else c.

Fixpoint toUpperCase (s : string) : string :=
  match s with
  | EmptyString => EmptyString
  | String c s' => String (upperUnit c) (toUpperCase s')
  end.

Fixpoint toLowerCase (s : string) : string :=
  match s with
  | EmptyString => EmptyString
  | String c s' => String (lowerUnit c) (toLowerCase s')
  end.

(** [str.charAt(0)]: the first code unit as a string, or the empty string. *)
Definition charAt0 (str : string) : string :=
  match str with
  | EmptyString => EmptyString
  | String c _ => String c EmptyString
  end.

(** [str.slice(1)] *)
Definition slice1 (str : string) : string :=
  match str with
  | EmptyString => EmptyString
  | String _ rest => rest
  end.

(** [capitalizeFirstLetter] *)
Definition capitalizeFirstLetter (str : string) : string :=
  (toUpperCase (charAt0 str) ++ slice1 str)%string.

(** [lowercaseFirstLetter] *)
Definition lowercaseFirstLetter (str : string) : string :=
  (toLowerCase (charAt0 str) ++ slice1 str)%string.

(** [getRelativeFileName]: the empty string is the falsy [basePath]. *)
Definition getRelativeFileName (basePath file : string) : string :=
  match basePath with
  | EmptyString => file
  | _ => (basePath ++ "/" ++ file)%string
  end.

(** The first code unit, if there is one, is ASCII. *)
Definition asciiHead (str : string) : bool :=
  match str with
  | EmptyString => true
  | String c _ => (nat_of_ascii c <? 128)%nat
  end.

(** The first code unit is an upper-case (lower-case) ASCII letter. *)
Definition startsUpper (str : string) : bool :=
  match str with
  | EmptyString => false
  | String c _ => isUpperLetter c
  end.

Definition startsLower (str : string) : bool :=
  match str with
  | EmptyString => false
  | String c _ => isLowerLetter c
  end.

End Helpers.

(* ===================================================================== *)
(** * The context hooks of the Engine component *)
(* ===================================================================== *)

Module Hooks.
Import Engine.

(** What [useContext] gives for the two contexts at some place of the
    tree: for each context the value of the nearest provider above that
    place, or the [createContext] default when there is none. *)
Record Contexts : Type := {
  engineCanvasContext : EngineCanvasContextType;
  sceneContext : SceneContextType
}.

Definition noProvider : Contexts := {|
  engineCanvasContext := EngineCanvasContext_default;
  sceneContext := SceneContext_default
|}.

(** The contexts seen by the children placed in [node], below the
    providers [above]. *)
Fixpoint contextsOfChildren (above : Contexts) (node : ReactNode) : Contexts :=
  match node with
  | ChildrenNode _ => above
  | EngineCanvasContextProvider value child =>
      contextsOfChildren
        {| engineCanvasContext := value; sceneContext := sceneContext above |}
        child
  | SceneContextProvider value child =>
      contextsOfChildren
        {| engineCanvasContext := engineCanvasContext above;
           sceneContext := value |}
        child
  end.

(** [useEngine]; the [as BabylonEngine] cast does not remove a [null]. *)
Definition useEngine (ctx : Contexts) : option BabylonEngine :=
  ctx_engine (engineCanvasContext ctx).

(** [useCanvas] *)
Definition useCanvas (ctx : Contexts) : option HTMLCanvasElement :=
  ctx_canvas (engineCanvasContext ctx).

(** [useScene] *)
Definition useScene (ctx : Contexts) : option Scene :=
  ctx_scene (sceneContext ctx).

(** [useXrExperience] *)
Definition useXrExperience (ctx : Contexts) : option WebXRDefaultExperience :=
  xrExperience (sceneContext ctx).

End Hooks.

(* ===================================================================== *)
(** * Kinds of calls, for counting and ordering *)
(* ===================================================================== *)

Module CallKinds.
Import Engine.

Definition isNewBabylonEngine (c : Call) : bool :=
  match c with
  | NewBabylonEngine _ => true
  | _ => false
  end.

Definition isNewScene (c : Call) : bool :=
  match c with
  | NewScene _ => true
  | _ => false
  end.

Definition isSetLoadingScreen (c : Call) : bool :=
  match c with
  | SetLoadingScreen _ _ => true
  | _ => false
  end.

Definition isRunRenderLoop (c : Call) : bool :=
  match c with
  | RunRenderLoop _ => true
  | _ => false
  end.

Definition isAddResizeListener (c : Call) : bool :=
  match c with
  | WindowAddEventListener _ _ => true
  | _ => false
  end.

Definition isDocumentListener (c : Call) : bool :=
  match c with
  | DocumentAddEventListener _ _ _ => true
  | _ => false
  end.

(** A call that releases something: removing a window listener,
    disposing an engine, or rendering the empty tree. *)
Definition isRelease (c : Call) : bool :=
  match c with
  | WindowRemoveEventListener _ _ => true
  | EngineDispose _ => true
  | ReactylonRender None _ => true
  | _ => false
  end.

(** [KeepsEngine m]: [m] never changes [engine.current]. *)
Definition KeepsEngine {A} (m : M A) : Prop :=
  forall env r, engine_current (refs (m env r)) = engine_current r.

(** [count P t]: how many calls of [t] are [P] calls. *)
Definition count (P : Call -> bool) (t : list Call) : nat :=
  length (filter P t).

(** [countReturned env P t]: how many [P] calls of [t] returned, that is,
    did not throw. *)
Definition countReturned (env : Env) (P : Call -> bool) (t : list Call) : nat :=
  count (fun c => P c && negb (throws env c)) t.

End CallKinds.

(* ===================================================================== *)
(** * Properties of the parameter-name-recovery utility *)
(* ===================================================================== *)

Section ParamsFacts.
Import Params ParamSyntax.

(** [mapL] is [map], with the callback's warnings concatenated in order. *)
Lemma mapL_paramName (ps : list Node) :
  mapL paramName ps =
  (concat (map (fun p => fst (paramName p)) ps),
   map (fun p => snd (paramName p)) ps).
Proof.
  induction ps as [|p ps IH]; [reflexivity|].
  cbn [mapL map concat]. rewrite IH.
  destruct (paramName p) as [w y]. reflexivity.
Qed.

Lemma traverse_functionNode (fn : Node) (ps : list Node) :
  functionNode fn = Some ps ->
  traverse fn =
  (concat (map (fun p => fst (paramName p)) ps),
   Some (map (fun p => snd (paramName p)) ps)).
Proof.
  destruct fn; cbn; try discriminate;
    intros [= ->]; rewrite mapL_paramName; reflexivity.
Qed.

Lemma paramName_unknown (p : Node) :
  unknownParameterType p = true ->
  paramName p = ([("Unknown parameter type: " ++ node_type p)%string], None).
Proof. destruct p; cbn; intros H; try discriminate H; reflexivity. Qed.

Lemma removeNull_In (n : string) (l : list (option string)) :
  In n (removeNull l) <-> In (Some n) l.
Proof.
  induction l as [|[s|] l IH]; cbn.
  - tauto.
  - rewrite IH. split; intros [H|H]; auto; left; congruence.
  - rewrite IH. split; [auto|]. intros [H|H]; [discriminate|assumption].
Qed.

Lemma knownPattern_name (pattern : Node) :
  (knownPattern pattern = true ->
   exists n, getDestructuredParameterName pattern = Some n) /\
  (knownPattern pattern = false -> getDestructuredParameterName pattern = None).
Proof.
  induction pattern; cbn; try (split; [discriminate|reflexivity]).
  - split; [eexists; reflexivity|discriminate].
  - exact IHpattern2.
Qed.

Lemma paramName_unrecognised (p : Node) :
  unrecognisedShape p = true -> snd (paramName p) = None.
Proof.
  destruct p; cbn; intros H; try discriminate H; try reflexivity.
  - apply negb_true_iff in H. apply knownPattern_name. exact H.
  - destruct p; try discriminate H; reflexivity.
Qed.

Lemma paramName_recognised (p : Node) :
  unrecognisedShape p = false -> exists n, snd (paramName p) = Some n.
Proof.
  destruct p; cbn; intros H; try discriminate H.
  - eexists; reflexivity.
  - apply negb_false_iff in H. apply knownPattern_name. exact H.
  - destruct p; try discriminate H. eexists; reflexivity.
Qed.

Lemma paramName_log (p : Node) :
  fst (paramName p)
  = if unknownParameterType p
    then [("Unknown parameter type: " ++ node_type p)%string]
    else [].
Proof. destruct p; reflexivity. Qed.

Lemma paramName_named (np : NamedParam) :
  snd (paramName (namedParamNode np)) = Some (namedParamName np).
Proof. destruct np; reflexivity. Qed.

(** C9, as the code has it.  When the parameter list of a parsed function
    (a declaration, or the function expression of a class constructor)
    holds a parameter of an unrecognised shape, [traverse] yields [null]
    at that parameter's position and still yields one entry per parameter:
    [null] exactly for the parameters of an unrecognised shape, and the
    name for every [x], [x = default] and [...x].  Both
    [getFunctionParams] and [getClassConstructorParams] return normally
    with the names of the remaining parameters, the placeholders removed.
    A diagnostic ["Unknown parameter type: <type>"] is logged for exactly
    the parameters whose own node type is not an identifier, a
    default-valued parameter or a rest parameter; a default-valued
    parameter with an unknown target and a rest parameter with a
    non-identifier argument give their placeholder without a diagnostic. *)
Theorem unrecognised_parameter_is_null_placeholder
    (fn : Node) (ps : list Node) (i : nat) (p : Node) :
  functionNode fn = Some ps ->
  nth_error ps i = Some p ->
  unrecognisedShape p = true ->
  exists (w : list string) (names : list (option string)),
    traverse fn = (w, Some names) /\
    w = flat_map
          (fun q => if unknownParameterType q
                    then [("Unknown parameter type: " ++ node_type q)%string]
                    else [])
          ps /\
    (unknownParameterType p = true ->
     In (("Unknown parameter type: " ++ node_type p)%string) w) /\
    nth_error names i = Some None /\
    length names = length ps /\
    (forall j q, nth_error ps j = Some q ->
                 (nth_error names j = Some None <-> unrecognisedShape q = true)) /\
    (forall j np, nth_error ps j = Some (namedParamNode np) ->
                  nth_error names j = Some (Some (namedParamName np))) /\
    (forall rest, getFunctionParams (Program (fn :: rest))
                  = (w, Ok (removeNull names))) /\
    (forall id sc members rest kind key,
        find isConstructorMethod members = Some (MethodDefinition kind key fn) ->
        getClassConstructorParams
          (Program (ClassDeclaration id sc (ClassBody members) :: rest))
        = (w, Ok (removeNull names))) /\
    (forall j np, nth_error ps j = Some (namedParamNode np) ->
                  In (namedParamName np) (removeNull names)).
Proof.
  intros Hfn Hp Hunk.
  pose proof (traverse_functionNode fn ps Hfn) as Ht.
  exists (concat (map (fun p => fst (paramName p)) ps)),
         (map (fun p => snd (paramName p)) ps).
  assert (Hnth : forall j q, nth_error ps j = Some q ->
            nth_error (map (fun p => snd (paramName p)) ps) j
            = Some (snd (paramName q))).
  { intros j q Hq. rewrite nth_error_map, Hq. reflexivity. }
  assert (Hlog : concat (map (fun p => fst (paramName p)) ps)
                 = flat_map
                     (fun q => if unknownParameterType q
                               then [("Unknown parameter type: " ++ node_type q)%string]
                               else [])
                     ps).
  { rewrite flat_map_concat_map. f_equal. apply map_ext. apply paramName_log. }
  split; [exact Ht|]. split; [exact Hlog|].
  split; [|split; [|split; [|split; [|split; [|split; [|split]]]]]].
  - intros Htype. apply in_concat. exists (fst (paramName p)). split.
    + apply in_map_iff. exists p. split; [reflexivity|].
      eapply nth_error_In; eassumption.
    + rewrite paramName_log, Htype. left; reflexivity.
  - rewrite (Hnth i p Hp), (paramName_unrecognised p Hunk). reflexivity.
  - apply length_map.
  - intros j q Hq. rewrite (Hnth j q Hq). split.
    + intros H. destruct (unrecognisedShape q) eqn:Hs; [reflexivity|].
      destruct (paramName_recognised q Hs) as [n Hn]. congruence.
    + intros Hs. rewrite (paramName_unrecognised q Hs). reflexivity.
  - intros j np Hq. rewrite (Hnth j _ Hq), paramName_named. reflexivity.
  - intros rest. cbn [getFunctionParams prop_body]. rewrite Ht. reflexivity.
  - intros id sc members rest kind key Hfind.
    cbn [getClassConstructorParams prop_body]. rewrite Hfind.
    cbn [prop_value]. rewrite Ht. reflexivity.
  - intros j np Hq. apply removeNull_In.
    rewrite <- paramName_named. eapply nth_error_In. apply Hnth. eassumption.
Qed.

Lemma unrecognised_parameter_is_null_placeholder_witness :
  getFunctionParams (Program [exampleFunction])
  = (["Unknown parameter type: ObjectPattern"], Ok ["a"; "c"]) /\
  getFunctionParams (Program [exampleSilentFunction]) = ([], Ok []).
Proof.
  destruct (unrecognised_parameter_is_null_placeholder exampleFunction
              [Identifier "a";
               ObjectPattern [Property (Identifier "b") (Identifier "b")];
               Identifier "c"]
              1 (ObjectPattern [Property (Identifier "b") (Identifier "b")])
              eq_refl eq_refl eq_refl)
    as (w & names & Ht & _ & _ & _ & _ & _ & _ & Hf & _).
  destruct (unrecognised_parameter_is_null_placeholder exampleSilentFunction
              [AssignmentPattern
                 (ObjectPattern [Property (Identifier "a") (Identifier "a")])
                 (Identifier "b");
               RestElement (ArrayPattern [Identifier "c"])]
              1 (RestElement (ArrayPattern [Identifier "c"]))
              eq_refl eq_refl eq_refl)
    as (w' & names' & Ht' & _ & _ & _ & _ & _ & _ & Hf' & _).
  rewrite (Hf []), (Hf' []). cbn in Ht, Ht'.
  injection Ht as <- <-. injection Ht' as <- <-. split; reflexivity.
Defined.

(** C9 as stated fails: for [function f({a} = b, ...[c]) {}] both
    parameters are of an unrecognised shape and no diagnostic is logged;
    for the arrow function [({a}) => {}] neither a diagnostic nor a
    placeholder is produced. *)
Lemma unrecognised_parameters_without_diagnostic :
  unrecognisedShape
    (AssignmentPattern
       (ObjectPattern [Property (Identifier "a") (Identifier "a")])
       (Identifier "b")) = true /\
  unrecognisedShape (RestElement (ArrayPattern [Identifier "c"])) = true /\
  traverse exampleSilentFunction = ([], Some [None; None]) /\
  getFunctionParams (Program [exampleSilentFunction]) = ([], Ok []) /\
  traverse exampleArrowSource = ([], None) /\
  getFunctionParams (Program [exampleArrowSource]) = ([], Ok []).
Proof. repeat split; reflexivity. Qed.

(** A default-valued or rest parameter whose inner pattern the helpers do
    not know is a different case: its type is recognised, the helper
    returns [null], and nothing is logged. *)
Remark unknown_inner_pattern_is_silent (inner rhs : Node) :
  getDestructuredParameterName inner = None ->
  getRestParameterName inner = None ->
  paramName (AssignmentPattern inner rhs) = ([], None) /\
  paramName (RestElement inner) = ([], None).
Proof. intros Hd Hr. cbn. rewrite Hd, Hr. split; reflexivity. Qed.

(** C10. For a class whose body holds no constructor method definition,
    [find] yields [undefined], reading its [value] throws a [TypeError],
    and [getClassConstructorParams] therefore throws instead of returning
    an empty parameter list. *)
Theorem class_without_constructor_throws
    (id : Node) (sc : option Node) (members rest : list Node) :
  (forall m, In m members -> isConstructorMethod m = false) ->
  getClassConstructorParams
    (Program (ClassDeclaration id sc (ClassBody members) :: rest))
  = ([], Throw (TypeError "Cannot read properties of undefined (reading 'value')"))
  /\ getClassConstructorParams
       (Program (ClassDeclaration id sc (ClassBody members) :: rest))
     <> ([], Ok []).
Proof.
  intros Hno.
  assert (Hfind : find isConstructorMethod members = None).
  { induction members as [|m ms IH]; [reflexivity|].
    cbn [find]. rewrite (Hno m (or_introl eq_refl)).
    apply IH. intros m' Hm'. apply Hno. right. exact Hm'. }
  cbn [getClassConstructorParams prop_body]. rewrite Hfind.
  split; [reflexivity|discriminate].
Qed.

Lemma class_without_constructor_throws_witness :
  getClassConstructorParams (Program [exampleClass])
  = ([], Throw (TypeError "Cannot read properties of undefined (reading 'value')")).
Proof.
  refine (proj1 (class_without_constructor_throws (Identifier "A") None
           [MethodDefinition "method" (Identifier "m")
              (FunctionExpression None [Identifier "x"] (BlockStatement []))]
           [] _)).
  intros m [<-|[]]. reflexivity.
Defined.

End ParamsFacts.

(* ===================================================================== *)
(** * Properties of the Engine component *)
(* ===================================================================== *)

Section EngineFacts.
Import Engine.
Local Open Scope engine_scope.

(** ** Exceptions only cut a run short *)

Lemma Lawful_ret {A} (a : A) : Lawful (ret a).
Proof. intros env r. cbn. split; [reflexivity|constructor]. Qed.

Lemma Lawful_call (c : Call) : Lawful (call c).
Proof.
  intros env r. unfold call. cbn. destruct (throws env c) eqn:Hc.
  - exists [], c, []. repeat split; auto.
  - split; [reflexivity|]. constructor; [assumption|constructor].
Qed.

Lemma Lawful_getRefs : Lawful getRefs.
Proof. intros env r. cbn. split; [reflexivity|constructor]. Qed.

Lemma Lawful_putRefs (r' : Refs) : Lawful (putRefs r').
Proof. intros env r. cbn. split; [reflexivity|constructor]. Qed.

Lemma Lawful_bind {A B} (m : M A) (k : A -> M B) :
  Lawful m -> (forall a, Lawful (k a)) -> Lawful (bind m k).
Proof.
  intros Hm Hk env r. specialize (Hm env r). unfold bind.
  destruct (outcome (m env r)) as [a|e] eqn:Hout.
  - destruct Hm as [Heq Hall]. rewrite <- Heq, Hout. cbn [outcome trace refs].
    specialize (Hk a env (refs (m env r))).
    destruct (outcome (k a env (refs (m env r)))) as [b|e] eqn:Hout2.
    + destruct Hk as [Heq2 Hall2]. rewrite <- Heq2, Hout2. split.
      * reflexivity.
      * apply Forall_app. split; assumption.
    + destruct Hk as (pre & c & suf & Ht & Hq & Hpre & Hc).
      exists (trace (m env r) ++ pre), c, suf. repeat split.
      * rewrite Ht. apply app_assoc.
      * rewrite Hq. apply app_assoc.
      * apply Forall_app. split; assumption.
      * assumption.
  - destruct Hm as (pre & c & suf & Ht & Hq & Hpre & Hc).
    cbn [outcome trace refs].
    destruct (outcome (m (quiet env) r)) as [a|e'].
    + exists pre, c, (suf ++ trace (k a (quiet env) (refs (m (quiet env) r)))).
      repeat split; auto. cbn [trace]. rewrite Hq. symmetry. apply app_assoc.
    + exists pre, c, suf. repeat split; auto.
Qed.

Lemma Lawful_await {A} (c : Call) (resolved : Env -> A) :
  (forall env, resolved (quiet env) = resolved env) ->
  Lawful (await c resolved).
Proof.
  intros Hres. apply Lawful_bind; [apply Lawful_call|].
  intros _ env r. cbn. rewrite Hres. split; [reflexivity|constructor].
Qed.

Ltac lawful :=
  repeat first
    [ apply Lawful_ret
    | apply Lawful_call
    | apply Lawful_getRefs
    | apply Lawful_putRefs
    | apply Lawful_await; reflexivity
    | apply Lawful_bind; [|intros ?]
    | match goal with
      | |- Lawful (match ?x with _ => _ end) => destruct x
      end
    | progress cbv beta zeta ].

Lemma Lawful_initializeScene canvasRef_current props :
  Lawful (initializeScene canvasRef_current props).
Proof.
  unfold initializeScene, enablePhysicsStep, xrExperienceStep,
    gui3DManagerStep, when, set_engine_current, set_scene_current,
    set_rootContainer_current.
  lawful.
Qed.

Lemma Lawful_prefix {A} (m : M A) :
  Lawful m ->
  forall env r, exists suf, trace (m (quiet env) r) = trace (m env r) ++ suf.
Proof.
  intros H env r. specialize (H env r).
  destruct (outcome (m env r)).
  - destruct H as [<- _]. exists []. symmetry. apply app_nil_r.
  - destruct H as (pre & c & suf & _ & Hq & _). exists suf. exact Hq.
Qed.

Lemma Lawful_In {A} (m : M A) :
  Lawful m ->
  forall env r c, In c (trace (m env r)) -> In c (trace (m (quiet env) r)).
Proof.
  intros H env r c Hc. destruct (Lawful_prefix m H env r) as [suf ->].
  apply in_or_app. left. exact Hc.
Qed.

Lemma Lawful_neverThrows {A} (m : M A) :
  Lawful m ->
  forall env r, neverThrows env -> m env r = m (quiet env) r.
Proof.
  intros H env r Hq. specialize (H env r).
  destruct (outcome (m env r)).
  - apply H.
  - destruct H as (pre & c & suf & _ & _ & _ & Hc).
    rewrite Hq in Hc. discriminate.
Qed.

Lemma Lawful_Ok {A} (m : M A) :
  Lawful m ->
  forall env r a, outcome (m env r) = Ok a -> m env r = m (quiet env) r.
Proof.
  intros H env r a Hout. specialize (H env r). rewrite Hout in H. apply H.
Qed.

(** A call that is followed by another call in the trace did not throw. *)
Lemma Lawful_followed {A} (m : M A) :
  Lawful m ->
  forall env r l1 c d l2,
    trace (m env r) = l1 ++ c :: d :: l2 -> throws env c = false.
Proof.
  intros H env r l1 c d l2 Ht. specialize (H env r).
  assert (Hin : forall pre, Forall (fun c => throws env c = false) pre ->
                            In c pre -> throws env c = false).
  { intros pre Hall Hc. rewrite Forall_forall in Hall. auto. }
  destruct (outcome (m env r)).
  - destruct H as [_ Hall]. apply (Hin _ Hall). rewrite Ht.
    apply in_or_app. right. left. reflexivity.
  - destruct H as (pre & c0 & suf & Hpre & _ & Hall & _).
    apply (Hin _ Hall). rewrite Ht in Hpre.
    destruct (exists_last (l := d :: l2)) as (l2' & x & Hl2); [discriminate|].
    rewrite Hl2 in Hpre.
    change (l1 ++ c :: l2' ++ [x]) with (l1 ++ (c :: l2') ++ [x]) in Hpre.
    rewrite app_assoc in Hpre. apply app_inj_tail in Hpre.
    destruct Hpre as [<- _]. apply in_or_app. right. left. reflexivity.
Qed.

(** ** Reading the order of calls off a trace *)

Lemma forallb_negb_nth (P : Call -> bool) (t : list Call) :
  forallb (fun d => negb (P d)) t = true ->
  forall i a, nth_error t i = Some a -> P a = false.
Proof.
  intros H i a Ha. rewrite forallb_forall in H.
  apply nth_error_In in Ha. apply H in Ha.
  destruct (P a); [discriminate|reflexivity].
Qed.

Lemma noneAfter_allBefore (P Q : Call -> bool) (t : list Call) :
  noneAfter P Q t = true -> allBefore P Q t.
Proof.
  induction t as [|c t IH]; intros H i j a b Ha Hb HP HQ.
  - destruct i; discriminate.
  - cbn [noneAfter] in H. apply andb_prop in H. destruct H as [Hc Ht].
    destruct j as [|j].
    + cbn in Hb. injection Hb as ->. rewrite HQ in Hc. cbn in Hc.
      apply andb_prop in Hc. destruct Hc as [Hb' Hall].
      destruct i as [|i].
      * cbn in Ha. injection Ha as ->. rewrite HP in Hb'. discriminate.
      * cbn in Ha. rewrite (forallb_negb_nth P t Hall i a Ha) in HP.
        discriminate.
    + destruct i as [|i]; [lia|].
      cbn in Ha, Hb. specialize (IH Ht i j a b Ha Hb HP HQ). lia.
Qed.

Lemma allBefore_prefix (P Q : Call -> bool) (t suf : list Call) :
  allBefore P Q (t ++ suf) -> allBefore P Q t.
Proof.
  intros H i j a b Ha Hb. apply H.
  - rewrite nth_error_app1; [assumption|].
    apply nth_error_Some. congruence.
  - rewrite nth_error_app1; [assumption|].
    apply nth_error_Some. congruence.
Qed.

Lemma precededFrom_sound (P Q : Call -> bool) (t : list Call) :
  forall seen,
    precededFrom seen P Q t = true ->
    forall j b,
      nth_error t j = Some b -> Q b = true ->
      seen = true \/
      exists i a, i < j /\ nth_error t i = Some a /\ P a = true.
Proof.
  induction t as [|c t IH]; intros seen H j b Hb HQ.
  - destruct j; discriminate.
  - cbn [precededFrom] in H. apply andb_prop in H. destruct H as [Hc Ht].
    destruct j as [|j].
    + cbn in Hb. injection Hb as ->. rewrite HQ in Hc. left. exact Hc.
    + cbn in Hb. destruct (IH _ Ht j b Hb HQ) as [Hseen|(i & a & Hi & Ha & HP)].
      * apply orb_prop in Hseen. destruct Hseen as [Hseen|HPc].
        -- left. exact Hseen.
        -- right. exists 0, c. repeat split; [lia|assumption].
      * right. exists (S i), a. repeat split; [lia|assumption|assumption].
Qed.

Lemma precededFrom_everyPrecededBy (P Q : Call -> bool) (t : list Call) :
  precededFrom false P Q t = true -> everyPrecededBy P Q t.
Proof.
  intros H j b Hb HQ.
  destruct (precededFrom_sound P Q t false H j b Hb HQ) as [Hf|Hex];
    [discriminate|exact Hex].
Qed.

Lemma everyPrecededBy_prefix (P Q : Call -> bool) (t suf : list Call) :
  everyPrecededBy P Q (t ++ suf) -> everyPrecededBy P Q t.
Proof.
  intros H j b Hb HQ.
  assert (Hj : (j < length t)%nat) by (apply nth_error_Some; congruence).
  destruct (H j b) as (i & a & Hi & Ha & HP).
  - rewrite nth_error_app1; assumption.
  - assumption.
  - exists i, a. repeat split; try assumption.
    rewrite nth_error_app1 in Ha; [assumption|lia].
Qed.

(** A call that is not the last one of the trace did not throw. *)
Lemma Lawful_not_last {A} (m : M A) :
  Lawful m ->
  forall env r i a,
    nth_error (trace (m env r)) i = Some a ->
    (S i < length (trace (m env r)))%nat ->
    throws env a = false.
Proof.
  intros H env r i a Ha Hi.
  destruct (nth_error_split _ _ Ha) as (l1 & l2 & Ht & Hlen).
  destruct l2 as [|d l2].
  - rewrite Ht, length_app in Hi. cbn in Hi. lia.
  - eapply (Lawful_followed m H). exact Ht.
Qed.

(** ** Case analysis on the props *)

Ltac destruct_props props :=
  let cfg := fresh "cfg" in
  let sc := fresh "sc" in
  let ch := fresh "ch" in
  destruct props as [cfg sc ch];
  destruct cfg as [? ? ? ? [?|]];
  [ destruct sc as [[? [[|]|] [?|] [[|]|] [?|] [[? [?|]]|]]|]
  | destruct sc as [[? [[|]|] [?|] [[|]|] [?|] [[? [?|]]|]]|] ].

Ltac in_cases H :=
  repeat match type of H with
         | In _ (_ :: _) => destruct H as [H|H]
         | In _ [] => destruct H
         | _ \/ _ => destruct H as [H|H]
         | False => destruct H
         end.

(** C8. With no canvas element in [canvasRef.current], [initializeScene]
    does nothing: it makes no call at all (no engine, scene or GUI manager
    is constructed, nothing is rendered, nothing is logged), leaves the
    engine, scene and root-container refs as they were, throws nothing and
    resolves to [undefined]; the effect callback does the same. *)
Theorem no_canvas_skips_initialization
    (props : EngineProps) (env : Env) (r : Refs) :
  initializeScene None props env r = mkRun [] r (Ok None) /\
  effectCallback None props env r = mkRun [] r (Ok None).
Proof. split; reflexivity. Qed.

(** C7. When the props carry no physics options, no run of
    [initializeScene] calls the Havok module loader, constructs a Havok
    plugin, or calls [enablePhysics], whatever the collaborators do. *)
Theorem no_physics_options_no_physics_calls
    (canvasRef_current : option HTMLCanvasElement) (props : EngineProps)
    (env : Env) (r : Refs) :
  physicsOptions (sceneConfigOf props) = None ->
  forall c, In c (trace (initializeScene canvasRef_current props env r)) ->
            isPhysicsCall c = false.
Proof.
  intros Hno c Hc.
  apply (Lawful_In _ (Lawful_initializeScene canvasRef_current props)) in Hc.
  destruct canvasRef_current as [canvas|]; [|destruct Hc].
  destruct_props props; try discriminate Hno;
    cbn in Hc; in_cases Hc; subst c; reflexivity.
Qed.

Lemma no_physics_options_no_physics_calls_witness :
  physicsOptions (sceneConfigOf propsPlain) = None /\
  forall c, In c (trace (initializeScene (Some canvas1) propsPlain quietEnv initialRefs)) ->
            isPhysicsCall c = false.
Proof.
  split; [reflexivity|].
  apply (no_physics_options_no_physics_calls (Some canvas1) propsPlain
           quietEnv initialRefs eq_refl).
Defined.

(** ** What a completed initialization leaves behind *)

Lemma initializeScene_prefix canvas props env r :
  exists suf,
    trace (initializeScene (Some canvas) props (quiet env) r)
    = trace (initializeScene (Some canvas) props env r) ++ suf.
Proof. apply Lawful_prefix, Lawful_initializeScene. Qed.

Lemma initializeScene_quiet canvas props env r :
  outcome (initializeScene (Some canvas) props (quiet env) r) = Ok (Some cleanup) /\
  refs (initializeScene (Some canvas) props (quiet env) r)
  = {| engine_current := Some (engineOf canvas props);
       scene_current := Some (sceneOf canvas props);
       rootContainer_current := Some (rootContainerOf canvas props) |}.
Proof. destruct_props props; split; reflexivity. Qed.

Lemma initializeScene_Ok canvas props env r d :
  outcome (initializeScene (Some canvas) props env r) = Ok d ->
  d = Some cleanup /\
  refs (initializeScene (Some canvas) props env r)
  = {| engine_current := Some (engineOf canvas props);
       scene_current := Some (sceneOf canvas props);
       rootContainer_current := Some (rootContainerOf canvas props) |}.
Proof.
  intros Hout.
  pose proof (Lawful_Ok _ (Lawful_initializeScene (Some canvas) props)
                env r d Hout) as Heq.
  destruct (initializeScene_quiet canvas props env r) as [Hq Hr].
  rewrite Heq in Hout |- *. rewrite Hq in Hout. split; [congruence|exact Hr].
Qed.

Ltac to_quiet_trace canvas props env r :=
  let suf := fresh "suf" in
  let Hsuf := fresh "Hsuf" in
  destruct (initializeScene_prefix canvas props env r) as [suf Hsuf];
  first [ apply (allBefore_prefix _ _ _ suf); rewrite <- Hsuf;
          apply noneAfter_allBefore
        | apply (everyPrecededBy_prefix _ _ _ suf); rewrite <- Hsuf;
          apply precededFrom_everyPrecededBy ];
  clear suf Hsuf.

(** C3. In every run of [initializeScene]: the scene-ready callback is
    called with the scene just constructed; it is called before any
    suspension point (synchronously), before every physics call and before
    XR negotiation, and when a callback is supplied each physics or XR call
    has the callback's call before it; every physics call (module load,
    plugin construction, [enablePhysics]) comes before XR negotiation, and
    when physics options are supplied XR negotiation starts only after
    [enablePhysics] was called and, like every call that is followed by
    another, returned without throwing.  When no collaborator throws, the
    callback, [enablePhysics] and XR negotiation are all called whenever
    they are configured. *)
Theorem scene_ready_then_physics_then_xr
    (canvas : HTMLCanvasElement) (props : EngineProps) (env : Env) (r : Refs) :
  let t := trace (initializeScene (Some canvas) props env r) in
  let cfg := sceneConfigOf props in
  (forall f s, In (CallOnSceneReady f s) t ->
               onSceneReady cfg = Some f /\ s = sceneOf canvas props) /\
  allBefore isSceneReadyCall isAwait t /\
  allBefore isSceneReadyCall isPhysicsCall t /\
  allBefore isSceneReadyCall isXRCall t /\
  (forall f, onSceneReady cfg = Some f ->
             everyPrecededBy isSceneReadyCall isPhysicsCall t /\
             everyPrecededBy isSceneReadyCall isXRCall t) /\
  allBefore isPhysicsCall isXRCall t /\
  (forall po, physicsOptions cfg = Some po ->
              everyPrecededBy isEnablePhysics isXRCall t) /\
  (forall i a, nth_error t i = Some a -> S i < length t ->
               throws env a = false) /\
  (neverThrows env ->
   (forall f, onSceneReady cfg = Some f ->
              In (CallOnSceneReady f (sceneOf canvas props)) t) /\
   (forall po, physicsOptions cfg = Some po ->
               exists g p, In (EnablePhysics (sceneOf canvas props) g p) t) /\
   (forall o, xrDefaultExperienceOptions cfg = Some o ->
              In (CreateDefaultXRExperienceAsync (sceneOf canvas props) o) t)).
Proof.
  intros t cfg. subst t cfg.
  split; [|split; [|split; [|split; [|split; [|split; [|split; [|split]]]]]]].
  - intros f s H.
    apply (Lawful_In _ (Lawful_initializeScene (Some canvas) props)) in H.
    destruct_props props; cbn in H; in_cases H; try discriminate H;
      injection H as <- <-; split; reflexivity.
  - to_quiet_trace canvas props env r. destruct_props props; reflexivity.
  - to_quiet_trace canvas props env r. destruct_props props; reflexivity.
  - to_quiet_trace canvas props env r. destruct_props props; reflexivity.
  - intros f Hf. split; to_quiet_trace canvas props env r;
      destruct_props props; try discriminate Hf; reflexivity.
  - to_quiet_trace canvas props env r. destruct_props props; reflexivity.
  - intros po Hpo. to_quiet_trace canvas props env r.
    destruct_props props; try discriminate Hpo; reflexivity.
  - apply Lawful_not_last, Lawful_initializeScene.
  - intros Hq.
    rewrite (Lawful_neverThrows _ (Lawful_initializeScene (Some canvas) props)
               env r Hq).
    split; [|split].
    + intros f Hf. destruct_props props; try discriminate Hf;
        injection Hf as <-; cbn; tauto.
    + intros po Hpo. destruct_props props; try discriminate Hpo;
        do 2 eexists; cbn; tauto.
    + intros o Ho. destruct_props props; try discriminate Ho;
        injection Ho as <-; cbn; tauto.
Qed.

Lemma scene_ready_then_physics_then_xr_witness :
  trace (initializeScene (Some canvas1) propsFull quietEnv initialRefs)
  = [NewBabylonEngine engine1;
     RunRenderLoop engine1;
     WindowAddEventListener "resize" onResizeWindow;
     NewScene scene1;
     CallOnSceneReady (sceneReadyFn 0) scene1;
     HavokPhysics locateFile;
     NewHavokPlugin (HavokPlugin true (havokInstance 0));
     EnablePhysics scene1 defaultGravity (HavokPlugin true (havokInstance 0));
     CreateDefaultXRExperienceAsync scene1 (xrOptionsBag 0);
     NewGUI3DManager (mkGUI3DManager scene1);
     ReactylonRender
       (Some (providers engine1 canvas1 scene1 (Some (xrExperienceObj 0))
                (childrenProp 0)))
       (Some (rootContainerOf canvas1 propsFull))] /\
  In (CallOnSceneReady (sceneReadyFn 0) scene1)
     (trace (initializeScene (Some canvas1) propsFull quietEnv initialRefs)) /\
  everyPrecededBy isEnablePhysics isXRCall
     (trace (initializeScene (Some canvas1) propsFull quietEnv initialRefs)).
Proof.
  pose proof (scene_ready_then_physics_then_xr canvas1 propsFull quietEnv
                initialRefs) as H.
  cbv zeta in H.
  destruct H as (_ & _ & _ & _ & _ & _ & Hxr & _ & Hall).
  split; [reflexivity|]. split.
  - apply (Hall (fun _ => eq_refl)). reflexivity.
  - apply (Hxr {| gravity := None; plugin := None |}). reflexivity.
Defined.

(** C4. Every call [initializeScene] makes to the reconciler's render entry
    point passes the root container
    [{ scene, rootInstance: { hostInstance: scene, metadata: { children: [],
    gui3DManager }, parent: null } }], where [gui3DManager] is a manager
    constructed for the scene exactly when the GUI-3D-manager flag (on when
    absent) is on, and passes the children wrapped in the scene-context
    provider, itself wrapped in the engine/canvas-context provider.  The
    manager is constructed before that call; when the initialization
    completes, in particular when no collaborator throws, the call was made
    and was its last, and the root-container ref holds the container that
    was passed. *)
Theorem mount_root_container_and_providers
    (canvas : HTMLCanvasElement) (props : EngineProps) (env : Env) (r : Refs) :
  let run := initializeScene (Some canvas) props env r in
  let e := engineOf canvas props in
  let s := sceneOf canvas props in
  let flag := withDefault true (isGui3DManager (sceneConfigOf props)) in
  let gui := if flag then Some (mkGUI3DManager s) else None in
  let rc := {| rc_scene := s;
               rootInstance := mkInstance s (mkMetadata [] gui) None |} in
  let tree xr :=
    EngineCanvasContextProvider
      {| ctx_engine := Some e; ctx_canvas := Some canvas |}
      (SceneContextProvider
         {| ctx_scene := Some s; sceneReady := true; xrExperience := xr |}
         (ChildrenNode (children props))) in
  (forall el c, In (ReactylonRender el c) (trace run) ->
                c = Some rc /\ el = Some (tree (xrExperienceOf env props))) /\
  (forall g, In (NewGUI3DManager g) (trace run) ->
             flag = true /\ g = mkGUI3DManager s) /\
  (flag = true -> everyPrecededBy isNewGUI3DManager isMount (trace run)) /\
  (scene props = None -> flag = true) /\
  (forall d, outcome run = Ok d ->
     rootContainer_current (refs run) = Some rc /\
     nth_error (trace run) (length (trace run) - 1)
     = Some (ReactylonRender (Some (tree (xrExperienceOf env props))) (Some rc))) /\
  (neverThrows env -> exists d, outcome run = Ok d).
Proof.
  intros run e s flag gui rc tree. subst run e s flag gui rc tree.
  split; [|split; [|split; [|split; [|split]]]].
  - intros el c H.
    apply (Lawful_In _ (Lawful_initializeScene (Some canvas) props)) in H.
    destruct_props props; cbn in H; in_cases H; try discriminate H;
      injection H as <- <-; split; reflexivity.
  - intros g H.
    apply (Lawful_In _ (Lawful_initializeScene (Some canvas) props)) in H.
    destruct_props props; cbn in H; in_cases H; try discriminate H;
      injection H as <-; split; reflexivity.
  - intros Hflag. to_quiet_trace canvas props env r.
    destruct_props props; try discriminate Hflag; reflexivity.
  - intros Hnone. unfold sceneConfigOf. rewrite Hnone. reflexivity.
  - intros d Hout.
    rewrite (Lawful_Ok _ (Lawful_initializeScene (Some canvas) props)
               env r d Hout).
    destruct_props props; split; reflexivity.
  - intros Hq.
    rewrite (Lawful_neverThrows _ (Lawful_initializeScene (Some canvas) props)
               env r Hq).
    exists (Some cleanup). apply initializeScene_quiet.
Qed.

Lemma mount_root_container_and_providers_witness :
  scene propsPlain = None /\
  neverThrows quietEnv /\
  rootContainer_current
    (refs (initializeScene (Some canvas1) propsPlain quietEnv initialRefs))
  = Some {| rc_scene := scene1;
            rootInstance :=
              mkInstance scene1
                (mkMetadata [] (Some (mkGUI3DManager scene1))) None |}.
Proof.
  pose proof (mount_root_container_and_providers canvas1 propsPlain quietEnv
                initialRefs) as H.
  cbv zeta in H. destruct H as (_ & _ & _ & _ & Hok & Hq).
  split; [reflexivity|]. split; [intros c; reflexivity|].
  destruct (Hq (fun _ => eq_refl)) as [d Hd].
  exact (proj1 (Hok d Hd)).
Defined.

(** C5. In every tree [initializeScene] hands to the reconciler, the
    engine/canvas snapshot is [{engine, canvas}] and the scene snapshot is
    [{scene, sceneReady: true, xrExperience}], where [xrExperience] is
    [null] when no XR options were supplied and otherwise is the value XR
    negotiation resolved to; with XR options supplied the mount comes after
    the negotiation call, which did not reject.  In particular, with no
    scene props at all the snapshots are [{engine, canvas}] and
    [{scene, sceneReady: true, xrExperience: null}], and they are published
    when no collaborator throws. *)
Theorem xr_snapshot_null_unless_negotiated
    (canvas : HTMLCanvasElement) (props : EngineProps) (env : Env) (r : Refs) :
  let t := trace (initializeScene (Some canvas) props env r) in
  let cfg := sceneConfigOf props in
  let e := engineOf canvas props in
  let s := sceneOf canvas props in
  (forall el c, In (ReactylonRender (Some el) c) t ->
     exists xr,
       el = EngineCanvasContextProvider
              {| ctx_engine := Some e; ctx_canvas := Some canvas |}
              (SceneContextProvider
                 {| ctx_scene := Some s; sceneReady := true;
                    xrExperience := xr |}
                 (ChildrenNode (children props))) /\
       (xrDefaultExperienceOptions cfg = None -> xr = None) /\
       (forall x, xr = Some x ->
          x = xrResult env /\
          exists o, xrDefaultExperienceOptions cfg = Some o /\
                    In (CreateDefaultXRExperienceAsync s o) t /\
                    throws env (CreateDefaultXRExperienceAsync s o) = false)) /\
  (forall o, xrDefaultExperienceOptions cfg = Some o ->
             everyPrecededBy isXRCall isMount t) /\
  (scene props = None ->
   (forall el c, In (ReactylonRender (Some el) c) t ->
      el = EngineCanvasContextProvider
             {| ctx_engine := Some e; ctx_canvas := Some canvas |}
             (SceneContextProvider
                {| ctx_scene := Some (mkScene e None); sceneReady := true;
                   xrExperience := None |}
                (ChildrenNode (children props)))) /\
   (neverThrows env ->
      exists el c, In (ReactylonRender (Some el) c) t)).
Proof.
  intros t cfg e s. subst t cfg e s.
  assert (Hmount : forall el c,
    In (ReactylonRender (Some el) c)
       (trace (initializeScene (Some canvas) props env r)) ->
    el = providers (engineOf canvas props) canvas (sceneOf canvas props)
           (xrExperienceOf env props) (children props)).
  { intros el c H.
    apply (Lawful_In _ (Lawful_initializeScene (Some canvas) props)) in H.
    destruct_props props; cbn in H; in_cases H; try discriminate H;
      injection H as <- <-; reflexivity. }
  split; [|split].
  - intros el c H. exists (xrExperienceOf env props).
    split; [exact (Hmount el c H)|]. split.
    + intros Hno. unfold xrExperienceOf. rewrite Hno. reflexivity.
    + intros x Hx. unfold xrExperienceOf in Hx.
      destruct (xrDefaultExperienceOptions (sceneConfigOf props)) as [o|] eqn:Ho;
        [|discriminate Hx].
      injection Hx as <-. split; [reflexivity|]. exists o.
      split; [reflexivity|].
      assert (Hpre : everyPrecededBy isXRCall isMount
                (trace (initializeScene (Some canvas) props env r))).
      { to_quiet_trace canvas props env r.
        destruct_props props; try discriminate Ho; reflexivity. }
      apply In_nth_error in H. destruct H as [j Hj].
      destruct (Hpre j _ Hj eq_refl) as (i & a & Hi & Ha & HP).
      assert (Hnl : throws env a = false).
      { apply (Lawful_not_last _ (Lawful_initializeScene (Some canvas) props)
                 env r i a Ha).
        assert (j < length (trace (initializeScene (Some canvas) props env r)))
          by (apply nth_error_Some; congruence).
        lia. }
      assert (Hin : In a (trace (initializeScene (Some canvas) props env r)))
        by (eapply nth_error_In; eassumption).
      assert (Ha' : a = CreateDefaultXRExperienceAsync (sceneOf canvas props) o).
      { clear Hnl Ha Hj Hpre Hi.
        apply (Lawful_In _ (Lawful_initializeScene (Some canvas) props)) in Hin.
        destruct_props props; try discriminate Ho; injection Ho as <-;
          cbn in Hin; in_cases Hin; subst a; try discriminate HP; reflexivity. }
      subst a. split; assumption.
  - intros o Ho. to_quiet_trace canvas props env r.
    destruct_props props; try discriminate Ho; reflexivity.
  - intros Hnone. split.
    + intros el c H. rewrite (Hmount el c H).
      unfold providers, xrExperienceOf, sceneOf, sceneConfigOf.
      rewrite Hnone. reflexivity.
    + intros Hq.
      rewrite (Lawful_neverThrows _ (Lawful_initializeScene (Some canvas) props)
                 env r Hq).
      destruct_props props; try discriminate Hnone;
        do 2 eexists; cbn; repeat (first [left; reflexivity | right]).
Qed.

Lemma xr_snapshot_null_unless_negotiated_witness :
  scene propsPlain = None /\
  neverThrows quietEnv /\
  exists c,
    In (ReactylonRender
          (Some (EngineCanvasContextProvider
                   {| ctx_engine := Some engine1; ctx_canvas := Some canvas1 |}
                   (SceneContextProvider
                      {| ctx_scene := Some scene1; sceneReady := true;
                         xrExperience := None |}
                      (ChildrenNode (childrenProp 0)))))
          c)
       (trace (initializeScene (Some canvas1) propsPlain quietEnv initialRefs)).
Proof.
  pose proof (xr_snapshot_null_unless_negotiated canvas1 propsPlain quietEnv
                initialRefs) as H.
  cbv zeta in H. destruct H as (_ & _ & Hplain).
  destruct (Hplain eq_refl) as [Hshape Hq].
  split; [reflexivity|]. split; [intros c; reflexivity|].
  destruct (Hq (fun _ => eq_refl)) as (el & c & Hin).
  rewrite (Hshape el c Hin) in Hin. exists c. exact Hin.
Defined.

(** C6. With physics options supplied, every [enablePhysics] call of
    [initializeScene] is made on the new scene, with the supplied gravity
    vector or else [(0, -9.8, 0)], and with the supplied plugin or else a
    Havok plugin built (use-delta-time on) from the module the Havok loader
    resolved to.  The loader is called only when no plugin is supplied, and
    then with a [locateFile] that maps a file name under
    [https://preview.babylonjs.com/havok/]; in that case [enablePhysics] is
    called only after the loader call, which did not reject.  When no
    collaborator throws, [enablePhysics] is called. *)
Theorem physics_enabled_with_defaults
    (canvas : HTMLCanvasElement) (props : EngineProps) (env : Env) (r : Refs)
    (po : PhysicsOptions) :
  physicsOptions (sceneConfigOf props) = Some po ->
  let t := trace (initializeScene (Some canvas) props env r) in
  let s := sceneOf canvas props in
  let g := match gravity po with
           | Some v => v
           | None => mkVector3 0 (Qmake (-98) 10) 0
           end in
  let p := match plugin po with
           | Some q => q
           | None => HavokPlugin true (havokModule env)
           end in
  (forall s' g' p', In (EnablePhysics s' g' p') t ->
                    s' = s /\ g' = g /\ p' = p) /\
  (forall f, In (HavokPhysics f) t ->
             plugin po = None /\
             forall file,
               f file = ("https://preview.babylonjs.com/havok/" ++ file)%string) /\
  (plugin po = None ->
   everyPrecededBy isHavokLoad isEnablePhysics t /\
   (forall c, In c t -> isEnablePhysics c = true ->
              throws env (HavokPhysics locateFile) = false)) /\
  (neverThrows env -> In (EnablePhysics s g p) t).
Proof.
  intros Hpo t s g p. subst t s g p.
  split; [|split; [|split]].
  - intros s' g' p' H.
    apply (Lawful_In _ (Lawful_initializeScene (Some canvas) props)) in H.
    destruct_props props; try discriminate Hpo; injection Hpo as <-;
      cbn in H; in_cases H; try discriminate H;
      injection H as <- <- <-; repeat split; reflexivity.
  - intros f H.
    apply (Lawful_In _ (Lawful_initializeScene (Some canvas) props)) in H.
    destruct_props props; try discriminate Hpo; injection Hpo as <-;
      cbn in H; in_cases H; try discriminate H;
      injection H as <-; split; reflexivity.
  - intros Hplugin.
    assert (Hpre : everyPrecededBy isHavokLoad isEnablePhysics
              (trace (initializeScene (Some canvas) props env r))).
    { to_quiet_trace canvas props env r.
      destruct_props props; try discriminate Hpo; injection Hpo as <-;
        try discriminate Hplugin; reflexivity. }
    split; [exact Hpre|].
    intros c Hc HE. apply In_nth_error in Hc. destruct Hc as [j Hj].
    destruct (Hpre j c Hj HE) as (i & a & Hi & Ha & HP).
    assert (Hnl : throws env a = false).
    { apply (Lawful_not_last _ (Lawful_initializeScene (Some canvas) props)
               env r i a Ha).
      assert (j < length (trace (initializeScene (Some canvas) props env r)))
        by (apply nth_error_Some; congruence).
      lia. }
    assert (Hin : In a (trace (initializeScene (Some canvas) props env r)))
      by (eapply nth_error_In; eassumption).
    assert (Ha' : a = HavokPhysics locateFile).
    { clear Hnl Ha Hj Hpre Hi.
      apply (Lawful_In _ (Lawful_initializeScene (Some canvas) props)) in Hin.
      destruct_props props; try discriminate Hpo;
        cbn in Hin; in_cases Hin; subst a; try discriminate HP; reflexivity. }
    subst a. exact Hnl.
  - intros Hq.
    rewrite (Lawful_neverThrows _ (Lawful_initializeScene (Some canvas) props)
               env r Hq).
    destruct_props props; try discriminate Hpo; injection Hpo as <-;
      cbn; repeat (first [left; reflexivity | right]).
Qed.

Lemma physics_enabled_with_defaults_witness :
  physicsOptions (sceneConfigOf propsFull)
  = Some {| gravity := None; plugin := None |} /\
  neverThrows quietEnv /\
  In (EnablePhysics scene1 (mkVector3 0 (Qmake (-98) 10) 0)
        (HavokPlugin true (havokInstance 0)))
     (trace (initializeScene (Some canvas1) propsFull quietEnv initialRefs)).
Proof.
  split; [reflexivity|]. split; [intros c; reflexivity|].
  apply (physics_enabled_with_defaults canvas1 propsFull quietEnv initialRefs
           {| gravity := None; plugin := None |} eq_refl).
  intros c. reflexivity.
Defined.

(** ** The render loop *)

Lemma renderScene_run (s : SceneState) (env : Env) (r : Refs) :
  trace (renderScene s env r)
  = (if isNull (activeCamera s) then [ConsoleWarn "no active camera.."] else [])
    ++ (if hasCameras s then [SceneRender (scene_obj s)] else []) /\
  refs (renderScene s env r) = r /\
  outcome (renderScene s env r)
  = if hasCameras s && throws env (SceneRender (scene_obj s))
    then Throw (ExternalError "call") else Ok tt.
Proof.
  unfold renderScene, when, bind, call, consoleWarn, ret.
  destruct (isNull (activeCamera s)); destruct (hasCameras s); cbn;
    try (destruct (throws env (SceneRender (scene_obj s))); cbn);
    repeat split; reflexivity.
Qed.

Lemma forEach_renderScene_In (l : list SceneState) (env : Env) (r : Refs) x :
  In (SceneRender x) (trace (forEach renderScene l env r)) ->
  exists s, In s l /\ scene_obj s = x /\ hasCameras s = true.
Proof.
  induction l as [|s l IH]; cbn [forEach]; [intros []|].
  destruct (renderScene_run s env r) as (Ht & Hr & Ho).
  unfold bind. rewrite Ho, Hr.
  assert (Hhead : In (SceneRender x) (trace (renderScene s env r)) ->
                  exists s', In s' (s :: l) /\ scene_obj s' = x /\ hasCameras s' = true).
  { rewrite Ht. intros H. apply in_app_or in H. destruct H as [H|H].
    - destruct (isNull (activeCamera s)); cbn in H; in_cases H; discriminate H.
    - destruct (hasCameras s) eqn:Hc; cbn in H; in_cases H.
      injection H as <-. exists s. repeat split; [left; reflexivity|exact Hc]. }
  destruct (hasCameras s && throws env (SceneRender (scene_obj s))); cbn [trace].
  - exact Hhead.
  - intros H. apply in_app_or in H. destruct H as [H|H]; [auto|].
    destruct (IH H) as (s' & Hs' & Hx & Hc). exists s'.
    repeat split; [right; exact Hs'|exact Hx|exact Hc].
Qed.

Lemma forEach_renderScene_quiet (l : list SceneState) (env : Env) (r : Refs) :
  (forall s, In s l -> throws env (SceneRender (scene_obj s)) = false) ->
  forEach renderScene l env r
  = mkRun (flat_map (fun s => trace (renderScene s env r)) l) r (Ok tt).
Proof.
  induction l as [|s l IH]; intros Hq; [reflexivity|].
  cbn [forEach flat_map].
  destruct (renderScene_run s env r) as (Ht & Hr & Ho).
  unfold bind. rewrite Ho, Hr, (Hq s (or_introl eq_refl)), andb_false_r.
  rewrite IH by (intros s' Hs'; apply Hq; right; exact Hs').
  reflexivity.
Qed.

(** The render gate of the frame callback.  For each scene of the engine
    on its own: a warning is logged when the scene has no active camera,
    and, independently of that, [render] is called exactly when the scene
    has one or more camera attachments.  A scene without camera
    attachments is never rendered and handling it throws nothing, every
    [render] call of a frame is for a scene with a camera attachment, and
    when no [render] call throws the frame is the concatenation, in order,
    of what is done for each scene. *)
Theorem render_gated_by_camera_attachments
    (scenes : BabylonEngine -> list SceneState) (e : BabylonEngine)
    (env : Env) (r : Refs) :
  engine_current r = Some e ->
  let calls s :=
    (if isNull (activeCamera s) then [ConsoleWarn "no active camera.."] else [])
    ++ (if hasCameras s then [SceneRender (scene_obj s)] else []) in
  (forall s, trace (renderScene s env r) = calls s /\
             refs (renderScene s env r) = r) /\
  (forall s, hasCameras s = false ->
             outcome (renderScene s env r) = Ok tt /\
             forall x, ~ In (SceneRender x) (trace (renderScene s env r))) /\
  (forall x, In (SceneRender x) (trace (renderLoopCallback scenes env r)) ->
             exists s, In s (scenes e) /\ scene_obj s = x /\ hasCameras s = true) /\
  ((forall s, In s (scenes e) -> throws env (SceneRender (scene_obj s)) = false) ->
   renderLoopCallback scenes env r = mkRun (flat_map calls (scenes e)) r (Ok tt)).
Proof.
  intros He calls. subst calls.
  split; [|split; [|split]].
  - intros s. destruct (renderScene_run s env r) as (Ht & Hr & _).
    split; assumption.
  - intros s Hc. destruct (renderScene_run s env r) as (Ht & _ & Ho).
    rewrite Ho, Ht, Hc. split; [reflexivity|].
    intros x H. apply in_app_or in H. destruct H as [H|H].
    + destruct (isNull (activeCamera s)); cbn in H; in_cases H; discriminate H.
    + destruct H.
  - intros x H. unfold renderLoopCallback, bind, engine_current_nonnull in H.
    cbn in H. rewrite He in H. cbn in H.
    apply forEach_renderScene_In in H. exact H.
  - intros Hq. unfold renderLoopCallback, bind, engine_current_nonnull.
    cbn. rewrite He. cbn.
    rewrite (forEach_renderScene_quiet _ env r Hq). cbn.
    f_equal. apply flat_map_ext. intros s.
    apply (renderScene_run s env r).
Qed.

Lemma render_gated_by_camera_attachments_witness :
  engine_current refsWithEngine = Some engine1 /\
  renderLoopCallback (fun _ => [sceneWithoutCamera; sceneWithInactiveCamera])
    quietEnv refsWithEngine
  = mkRun [ConsoleWarn "no active camera..";
           ConsoleWarn "no active camera.."; SceneRender scene1]
          refsWithEngine (Ok tt).
Proof.
  split; [reflexivity|].
  apply (render_gated_by_camera_attachments
           (fun _ => [sceneWithoutCamera; sceneWithInactiveCamera])
           engine1 quietEnv refsWithEngine eq_refl).
  intros s _. reflexivity.
Defined.

(** C1.  The claim holds of the intent the source states ("@babylonjs/core
    throws an error if you attempt to render with no active camera") and
    fails on the code: for a scene with no active camera and one camera
    attached, the frame callback logs the warning and calls [render] all
    the same, whatever the collaborators do; and when the engine throws on
    that call, as the source's comment says it does, the exception leaves
    the render-loop callback. *)
Lemma render_despite_no_active_camera :
  let frame env :=
    renderLoopCallback (fun _ => [sceneWithInactiveCamera]) env refsWithEngine in
  let babylon := {| throws := fun c => match c with
                                       | SceneRender _ => true
                                       | _ => false
                                       end;
                    havokModule := havokInstance 0;
                    xrResult := xrExperienceObj 0 |} in
  activeCamera sceneWithInactiveCamera = None /\
  hasCameras sceneWithInactiveCamera = true /\
  trace (frame quietEnv)
  = [ConsoleWarn "no active camera.."; SceneRender scene1] /\
  In (SceneRender (scene_obj sceneWithInactiveCamera)) (trace (frame quietEnv)) /\
  trace (frame babylon)
  = [ConsoleWarn "no active camera.."; SceneRender scene1] /\
  outcome (frame babylon) = Throw (ExternalError "call").
Proof.
  cbv zeta. repeat split; try reflexivity. right. left. reflexivity.
Qed.

(** ** Teardown *)

(** The effect callback hands no destructor to the owning scope, so the
    scope's teardown runs none of the closure [initializeScene] built. *)
Remark effect_has_no_destructor
    (canvasRef_current : option HTMLCanvasElement) (props : EngineProps)
    (env env' : Env) (r : Refs) :
  let run := effectCallback canvasRef_current props env r in
  outcome run = Ok None /\
  forall d, outcome run = Ok d ->
            runDestructor d env' (refs run) = mkRun [] (refs run) (Ok tt).
Proof.
  split; [reflexivity|].
  intros d Hd. cbn in Hd. injection Hd as <-. reflexivity.
Qed.

Lemma bind_call_run {B} (c : Call) (k : unit -> M B) env r :
  bind (call c) k env r
  = if throws env c then mkRun [c] r (Throw (ExternalError "call"))
    else mkRun (c :: trace (k tt env r)) (refs (k tt env r))
               (outcome (k tt env r)).
Proof. unfold bind, call. cbn. destruct (throws env c); reflexivity. Qed.

Lemma bind_engine_current_nonnull_run {B} (k : BabylonEngine -> M B) env r e :
  engine_current r = Some e ->
  bind engine_current_nonnull k env r
  = mkRun (trace (k e env r)) (refs (k e env r)) (outcome (k e env r)).
Proof.
  intros He. unfold bind at 1, engine_current_nonnull, bind, getRefs. cbn.
  rewrite He. reflexivity.
Qed.

Lemma bind_getRefs_run {B} (k : Refs -> M B) env r :
  bind getRefs k env r
  = mkRun (trace (k r env r)) (refs (k r env r)) (outcome (k r env r)).
Proof. reflexivity. Qed.

Lemma cleanup_run (e : BabylonEngine) (s : option Scene)
    (rc : option RootContainer) (env : Env) :
  let r := {| engine_current := Some e; scene_current := s;
              rootContainer_current := rc |} in
  let script := [WindowRemoveEventListener "resize" onResizeWindow;
                 EngineDispose e;
                 ReactylonRender None rc] in
  (exists suf, script = trace (cleanup env r) ++ suf) /\
  (neverThrows env ->
   cleanup env r
   = mkRun script
       {| engine_current := Some e; scene_current := s;
          rootContainer_current := None |}
       (Ok tt)).
Proof.
  intros r script. subst r script.
  unfold cleanup.
  rewrite bind_call_run.
  rewrite bind_engine_current_nonnull_run with (e := e) by reflexivity.
  cbn [trace refs outcome].
  rewrite bind_call_run, bind_getRefs_run.
  cbn [trace refs outcome].
  rewrite bind_call_run.
  cbn [rootContainer_current].
  split.
  - destruct (throws env (WindowRemoveEventListener "resize" onResizeWindow));
      [eexists; reflexivity|].
    destruct (throws env (EngineDispose e)); [eexists; reflexivity|].
    destruct (throws env (ReactylonRender None rc)); exists []; reflexivity.
  - intros Hq. rewrite !Hq. reflexivity.
Qed.

(** C2, as the code has it.  The teardown closure that a completed
    [initializeScene] returns, when it is run, removes the window-resize
    listener, then disposes the engine, and only then unmounts the
    reconciliation root (renders the empty tree against the root
    container), after which it clears the root-container ref: its calls
    are always a prefix of that sequence, and the whole of it when no
    collaborator throws. *)
Theorem teardown_closure_order
    (canvas : HTMLCanvasElement) (props : EngineProps) (env env' : Env)
    (r : Refs) (d : M unit) :
  outcome (initializeScene (Some canvas) props env r) = Ok (Some d) ->
  let run := d env' (refs (initializeScene (Some canvas) props env r)) in
  let script := [WindowRemoveEventListener "resize" onResizeWindow;
                 EngineDispose (engineOf canvas props);
                 ReactylonRender None (Some (rootContainerOf canvas props))] in
  (exists suf, script = trace run ++ suf) /\
  allBefore isRemoveResizeListener isDispose (trace run) /\
  allBefore isDispose isUnmount (trace run) /\
  everyPrecededBy isDispose isUnmount (trace run) /\
  (neverThrows env' ->
   trace run = script /\
   outcome run = Ok tt /\
   rootContainer_current (refs run) = None).
Proof.
  intros Hout run script. subst run script.
  destruct (initializeScene_Ok canvas props env r _ Hout) as [Hd Hr].
  injection Hd as ->. rewrite Hr.
  destruct (cleanup_run (engineOf canvas props) (Some (sceneOf canvas props))
              (Some (rootContainerOf canvas props)) env') as [[suf Hsuf] Hq].
  split; [exists suf; exact Hsuf|].
  split; [|split; [|split]].
  - apply (allBefore_prefix _ _ _ suf). rewrite <- Hsuf.
    apply noneAfter_allBefore. reflexivity.
  - apply (allBefore_prefix _ _ _ suf). rewrite <- Hsuf.
    apply noneAfter_allBefore. reflexivity.
  - apply (everyPrecededBy_prefix _ _ _ suf). rewrite <- Hsuf.
    apply precededFrom_everyPrecededBy. reflexivity.
  - intros Hquiet. rewrite (Hq Hquiet). repeat split; reflexivity.
Qed.

Lemma teardown_closure_order_witness :
  outcome (initializeScene (Some canvas1) propsPlain quietEnv initialRefs)
  = Ok (Some cleanup) /\
  neverThrows quietEnv /\
  trace (cleanup quietEnv
           (refs (initializeScene (Some canvas1) propsPlain quietEnv initialRefs)))
  = [WindowRemoveEventListener "resize" onResizeWindow;
     EngineDispose engine1;
     ReactylonRender None (Some (rootContainerOf canvas1 propsPlain))].
Proof.
  split; [reflexivity|]. split; [intros c; reflexivity|].
  apply (teardown_closure_order canvas1 propsPlain quietEnv quietEnv
           initialRefs cleanup eq_refl).
  intros c. reflexivity.
Defined.

(** C2 as stated fails: the closure disposes the engine before it unmounts
    the reconciliation root, not after. *)
Lemma teardown_disposes_before_unmount :
  let t := trace (cleanup quietEnv
                    (refs (initializeScene (Some canvas1) propsPlain
                             quietEnv initialRefs))) in
  outcome (initializeScene (Some canvas1) propsPlain quietEnv initialRefs)
  = Ok (Some cleanup) /\
  nth_error t 1 = Some (EngineDispose engine1) /\
  nth_error t 2
  = Some (ReactylonRender None (Some (rootContainerOf canvas1 propsPlain))) /\
  ~ allBefore isUnmount isDispose t.
Proof.
  cbv zeta. split; [reflexivity|]. split; [reflexivity|].
  split; [reflexivity|].
  intros H.
  specialize (H 2 1 (ReactylonRender None (Some (rootContainerOf canvas1 propsPlain)))
                (EngineDispose engine1) eq_refl eq_refl eq_refl eq_refl).
  lia.
Qed.

(** ** The whole initialization *)

Import CallKinds Hooks.

(** X12. When no collaborator throws, [initializeScene] makes exactly these
    calls in this order: engine, loading screen (if a loader is given),
    render loop, resize listener, scene, scene-ready callback (if given),
    physics (if configured: module load and plugin unless a plugin is
    given, then [enablePhysics]), XR negotiation (if configured), inspector
    key listener (if the flag is on), GUI manager (unless the flag is off),
    mount.  Whatever the collaborators do, the calls made are a prefix of
    that sequence. *)
Theorem initialization_calls_in_order
    (canvas : HTMLCanvasElement) (props : EngineProps) (env : Env) (r : Refs) :
  let t := trace (initializeScene (Some canvas) props env r) in
  let cfg := sceneConfigOf props in
  let e := engineOf canvas props in
  let s := sceneOf canvas props in
  let script :=
    [NewBabylonEngine e]
    ++ match loader (engine props) with
       | Some l => [SetLoadingScreen e (mkCustomLoadingScreen canvas l)]
       | None => []
       end
    ++ [RunRenderLoop e; WindowAddEventListener "resize" onResizeWindow;
        NewScene s]
    ++ match onSceneReady cfg with
       | Some f => [CallOnSceneReady f s]
       | None => []
       end
    ++ match physicsOptions cfg with
       | Some po =>
           match plugin po with
           | Some p => [EnablePhysics s (withDefault defaultGravity (gravity po)) p]
           | None =>
               [HavokPhysics locateFile;
                NewHavokPlugin (HavokPlugin true (havokModule env));
                EnablePhysics s (withDefault defaultGravity (gravity po))
                  (HavokPlugin true (havokModule env))]
           end
       | None => []
       end
    ++ match xrDefaultExperienceOptions cfg with
       | Some o => [CreateDefaultXRExperienceAsync s o]
       | None => []
       end
    ++ (if withDefault false (isInteractiveInspector cfg)
        then [DocumentAddEventListener "keydown" onInspectorKeydown false]
        else [])
    ++ (if withDefault true (isGui3DManager cfg)
        then [NewGUI3DManager (mkGUI3DManager s)]
        else [])
    ++ [ReactylonRender
          (Some (providers e canvas s (xrExperienceOf env props) (children props)))
          (Some (rootContainerOf canvas props))] in
  (exists rest, script = t ++ rest) /\
  (neverThrows env -> t = script) /\
  (forall d, outcome (initializeScene (Some canvas) props env r) = Ok d ->
             t = script).
Proof.
  intros t cfg e s script.
  assert (Hq : trace (initializeScene (Some canvas) props (quiet env) r) = script).
  { subst t cfg e s script. destruct_props props; reflexivity. }
  split; [|split].
  - destruct (initializeScene_prefix canvas props env r) as [rest Hrest].
    exists rest. rewrite <- Hq. exact Hrest.
  - intros Hnt. subst t.
    rewrite (Lawful_neverThrows _ (Lawful_initializeScene (Some canvas) props)
               env r Hnt).
    exact Hq.
  - intros d Hd. subst t.
    rewrite (Lawful_Ok _ (Lawful_initializeScene (Some canvas) props)
               env r d Hd).
    exact Hq.
Qed.

Lemma initialization_calls_in_order_witness :
  neverThrows quietEnv /\
  trace (initializeScene (Some canvas1) propsPlain quietEnv initialRefs)
  = [NewBabylonEngine engine1;
     RunRenderLoop engine1;
     WindowAddEventListener "resize" onResizeWindow;
     NewScene scene1;
     NewGUI3DManager (mkGUI3DManager scene1);
     ReactylonRender
       (Some (providers engine1 canvas1 scene1 None (childrenProp 0)))
       (Some (rootContainerOf canvas1 propsPlain))].
Proof.
  split; [intros c; reflexivity|].
  apply (initialization_calls_in_order canvas1 propsPlain quietEnv initialRefs).
  intros c. reflexivity.
Defined.

(** X13. The first collaborator call that throws (or rejects) ends the
    initialization: it is the last call made, and the initialization
    throws.  Conversely an initialization that throws does so at its last
    call, all calls before which returned, and one that returns made no
    call that threw. *)
Theorem first_failure_ends_initialization
    (canvasRef_current : option HTMLCanvasElement) (props : EngineProps)
    (env : Env) (r : Refs) :
  let run := initializeScene canvasRef_current props env r in
  (forall i c, nth_error (trace run) i = Some c -> throws env c = true ->
               S i = length (trace run) /\ exists e, outcome run = Throw e) /\
  (forall e, outcome run = Throw e ->
             exists before c,
               trace run = before ++ [c] /\ throws env c = true /\
               forall b, In b before -> throws env b = false) /\
  (forall d, outcome run = Ok d ->
             forall c, In c (trace run) -> throws env c = false).
Proof.
  intros run. subst run.
  pose proof (Lawful_initializeScene canvasRef_current props env r) as HL.
  split; [|split].
  - intros i c Hc Hthrow. split.
    + assert (Hlt : i < length (trace (initializeScene canvasRef_current props env r)))
        by (apply nth_error_Some; congruence).
      destruct (Nat.eq_dec (S i) (length (trace (initializeScene canvasRef_current props env r))))
        as [Heq|Hne]; [exact Heq|].
      rewrite (Lawful_not_last _ (Lawful_initializeScene canvasRef_current props)
                 env r i c Hc) in Hthrow by lia.
      discriminate Hthrow.
    + destruct (outcome (initializeScene canvasRef_current props env r)) as [d|e].
      * destruct HL as [_ Hall]. rewrite Forall_forall in Hall.
        rewrite (Hall c (nth_error_In _ _ Hc)) in Hthrow. discriminate Hthrow.
      * exists e. reflexivity.
  - intros e He. rewrite He in HL.
    destruct HL as (before & c & suf & Ht & _ & Hall & Hc).
    exists before, c. repeat split; try assumption.
    rewrite Forall_forall in Hall. exact Hall.
  - intros d Hd. rewrite Hd in HL. destruct HL as [_ Hall].
    rewrite Forall_forall in Hall. exact Hall.
Qed.

(** A run in which XR negotiation rejects. *)
Lemma first_failure_ends_initialization_witness :
  let env := {| throws := isXRCall;
                havokModule := havokInstance 0;
                xrResult := xrExperienceObj 0 |} in
  length (trace (initializeScene (Some canvas1) propsFull env initialRefs)) = 9 /\
  exists e, outcome (initializeScene (Some canvas1) propsFull env initialRefs)
            = Throw e.
Proof.
  cbv zeta.
  destruct (first_failure_ends_initialization (Some canvas1) propsFull
              {| throws := isXRCall;
                 havokModule := havokInstance 0;
                 xrResult := xrExperienceObj 0 |} initialRefs)
    as [Hfirst _].
  destruct (Hfirst 8 (CreateDefaultXRExperienceAsync scene1 (xrOptionsBag 0))
              eq_refl eq_refl) as [Hlen Hthrow].
  split; [symmetry; exact Hlen|exact Hthrow].
Defined.

(** ** What a failed initialization leaves behind *)

Lemma KeepsEngine_ret {A} (a : A) : KeepsEngine (ret a).
Proof. intros env r. reflexivity. Qed.

Lemma KeepsEngine_call (c : Call) : KeepsEngine (call c).
Proof. intros env r. reflexivity. Qed.

Lemma KeepsEngine_await {A} (c : Call) (resolved : Env -> A) :
  KeepsEngine (await c resolved).
Proof.
  intros env r. unfold await, bind, call. cbn.
  destruct (throws env c); reflexivity.
Qed.

Lemma KeepsEngine_set_scene_current v : KeepsEngine (set_scene_current v).
Proof. intros env r. reflexivity. Qed.

Lemma KeepsEngine_set_rootContainer_current v :
  KeepsEngine (set_rootContainer_current v).
Proof. intros env r. reflexivity. Qed.

Lemma KeepsEngine_bind {A B} (m : M A) (k : A -> M B) :
  KeepsEngine m -> (forall a, KeepsEngine (k a)) -> KeepsEngine (bind m k).
Proof.
  intros Hm Hk env r. unfold bind.
  destruct (outcome (m env r)) as [a|e]; cbn [refs].
  - rewrite Hk. apply Hm.
  - apply Hm.
Qed.

Ltac keeps_engine :=
  repeat first
    [ apply KeepsEngine_ret
    | apply KeepsEngine_call
    | apply KeepsEngine_await
    | apply KeepsEngine_set_scene_current
    | apply KeepsEngine_set_rootContainer_current
    | apply KeepsEngine_bind; [|intros ?]
    | match goal with
      | |- KeepsEngine (match ?x with _ => _ end) => destruct x
      end
    | progress cbv beta zeta ].

Lemma bind_set_engine_current_run {B} v (k : unit -> M B) env r :
  bind (set_engine_current v) k env r
  = let r' := {| engine_current := v;
                 scene_current := scene_current r;
                 rootContainer_current := rootContainer_current r |} in
    mkRun (trace (k tt env r')) (refs (k tt env r')) (outcome (k tt env r')).
Proof. reflexivity. Qed.

Lemma initializeScene_never_releases canvasRef_current props env r c :
  In c (trace (initializeScene canvasRef_current props env r)) ->
  isRelease c = false.
Proof.
  intros Hc.
  apply (Lawful_In _ (Lawful_initializeScene canvasRef_current props)) in Hc.
  destruct canvasRef_current as [canvas|]; [|destruct Hc].
  destruct_props props; cbn in Hc; in_cases Hc; subst c; reflexivity.
Qed.

(** X14. [initializeScene] never undoes anything: no run of it removes a
    listener, disposes the engine or unmounts.  If constructing the engine
    throws, nothing else was done and the refs are untouched; if a later
    step throws or rejects, [engine.current] still holds the engine that
    was constructed. *)
Theorem failed_initialization_releases_nothing
    (canvas : HTMLCanvasElement) (props : EngineProps) (env : Env) (r : Refs) :
  let run := initializeScene (Some canvas) props env r in
  let e := engineOf canvas props in
  (forall c, In c (trace run) -> isRelease c = false) /\
  (throws env (NewBabylonEngine e) = true ->
   run = mkRun [NewBabylonEngine e] r (Throw (ExternalError "call"))) /\
  (throws env (NewBabylonEngine e) = false ->
   engine_current (refs run) = Some e).
Proof.
  intros run e. subst run e.
  split; [|split].
  - intros c. apply initializeScene_never_releases.
  - intros Hthrow. unfold initializeScene. cbv zeta.
    rewrite bind_call_run. unfold engineOf in Hthrow. rewrite Hthrow.
    reflexivity.
  - intros Hok. unfold initializeScene. cbv zeta.
    rewrite bind_call_run. unfold engineOf in Hok |- *. rewrite Hok.
    cbn [refs]. rewrite bind_set_engine_current_run. cbv zeta. cbn [refs].
    match goal with
    | |- engine_current (refs (?m env ?r')) = _ =>
        assert (Hkeep : KeepsEngine m)
    end.
    { unfold enablePhysicsStep, xrExperienceStep, gui3DManagerStep, when.
      keeps_engine. }
    rewrite Hkeep. reflexivity.
Qed.

(** A run in which loading the Havok module rejects. *)
Lemma failed_initialization_releases_nothing_witness :
  let env := {| throws := isHavokLoad;
                havokModule := havokInstance 0;
                xrResult := xrExperienceObj 0 |} in
  (exists e, outcome (initializeScene (Some canvas1) propsFull env initialRefs)
             = Throw e) /\
  engine_current (refs (initializeScene (Some canvas1) propsFull env initialRefs))
  = Some engine1.
Proof.
  cbv zeta. split; [eexists; reflexivity|].
  apply (failed_initialization_releases_nothing canvas1 propsFull
           {| throws := isHavokLoad;
              havokModule := havokInstance 0;
              xrResult := xrExperienceObj 0 |} initialRefs).
  reflexivity.
Defined.

(** ** How often each resource is acquired *)

Lemma count_prefix (P : Call -> bool) (t rest : list Call) :
  count P t <= count P (t ++ rest).
Proof. unfold count. rewrite filter_app, length_app. lia. Qed.

Lemma initializeScene_count_le (P : Call -> bool) canvas props n :
  (forall env r,
      count P (trace (initializeScene (Some canvas) props (quiet env) r)) <= n) ->
  forall env r,
    count P (trace (initializeScene (Some canvas) props env r)) <= n.
Proof.
  intros H env r.
  destruct (initializeScene_prefix canvas props env r) as [rest Hrest].
  eapply Nat.le_trans; [|apply (H env r)].
  rewrite Hrest. apply count_prefix.
Qed.

Lemma countReturned_le (env : Env) (P : Call -> bool) (t : list Call) :
  countReturned env P t <= count P t.
Proof.
  unfold countReturned, count. induction t as [|c t IH]; [apply Nat.le_refl|].
  cbn [filter]. destruct (P c); cbn [andb]; [|exact IH].
  destruct (negb (throws env c)); cbn [length]; lia.
Qed.

Lemma countReturned_all_returned (env : Env) (P : Call -> bool) (t : list Call) :
  Forall (fun c => throws env c = false) t ->
  countReturned env P t = count P t.
Proof.
  unfold countReturned, count. induction 1 as [|c t Hc _ IH]; [reflexivity|].
  cbn [filter]. rewrite Hc. cbn [negb]. rewrite andb_true_r.
  destruct (P c); cbn [length]; rewrite IH; reflexivity.
Qed.

(** X15. Every run of [initializeScene] with a canvas calls the engine
    constructor exactly once, so it constructs at most one engine: one
    when that call returns, none when it throws.  It constructs at most
    one scene, registers the render loop and the resize listener at most
    once and mounts at most once.  A run that completes has constructed
    exactly one engine and exactly one scene, and has registered the
    render loop, registered the resize listener and mounted exactly once,
    each of these calls having returned. *)
Theorem each_resource_acquired_once
    (canvas : HTMLCanvasElement) (props : EngineProps) (env : Env) (r : Refs) :
  let run := initializeScene (Some canvas) props env r in
  let constructorCall := NewBabylonEngine (engineOf canvas props) in
  count isNewBabylonEngine (trace run) = 1 /\
  countReturned env isNewBabylonEngine (trace run)
  = (if throws env constructorCall then 0 else 1) /\
  (throws env constructorCall = true ->
   engine_current (refs run) = engine_current r) /\
  count isNewScene (trace run) <= 1 /\
  countReturned env isNewScene (trace run) <= 1 /\
  count isRunRenderLoop (trace run) <= 1 /\
  count isAddResizeListener (trace run) <= 1 /\
  count isMount (trace run) <= 1 /\
  (forall d, outcome run = Ok d ->
     countReturned env isNewBabylonEngine (trace run) = 1 /\
     countReturned env isNewScene (trace run) = 1 /\
     countReturned env isRunRenderLoop (trace run) = 1 /\
     countReturned env isAddResizeListener (trace run) = 1 /\
     countReturned env isMount (trace run) = 1).
Proof.
  intros run constructorCall. subst run constructorCall.
  assert (Hle : forall P,
    (forall env' r',
        count P (trace (initializeScene (Some canvas) props (quiet env') r')) <= 1) ->
    count P (trace (initializeScene (Some canvas) props env r)) <= 1).
  { intros P HP. apply initializeScene_count_le. exact HP. }
  assert (Hhead : exists tail,
    trace (initializeScene (Some canvas) props env r)
    = NewBabylonEngine (engineOf canvas props) :: tail /\
    (throws env (NewBabylonEngine (engineOf canvas props)) = true ->
     tail = [] /\
     refs (initializeScene (Some canvas) props env r) = r)).
  { unfold initializeScene. cbv zeta. rewrite bind_call_run.
    fold (engineOf canvas props).
    destruct (throws env (NewBabylonEngine (engineOf canvas props))).
    - exists []. split; [reflexivity|]. intros _. split; reflexivity.
    - eexists. split; [reflexivity|]. discriminate. }
  destruct Hhead as (tail & Htrace & Hthrow).
  assert (Hone : count isNewBabylonEngine
                   (trace (initializeScene (Some canvas) props env r)) = 1).
  { apply Nat.le_antisymm.
    - apply Hle. intros env' r'. destruct_props props; vm_compute; lia.
    - rewrite Htrace. cbn. lia. }
  split; [exact Hone|].
  split; [|split; [|split; [|split; [|split; [|split; [|split]]]]]].
  - rewrite Htrace in Hone |- *. unfold countReturned, count in Hone |- *.
    cbn [filter isNewBabylonEngine andb length] in Hone |- *.
    assert (Htail : length (filter (fun c => isNewBabylonEngine c
                                             && negb (throws env c)) tail) = 0).
    { pose proof (countReturned_le env isNewBabylonEngine tail) as H.
      unfold countReturned, count in H. lia. }
    destruct (throws env (NewBabylonEngine (engineOf canvas props)));
      cbn [negb length]; rewrite Htail; reflexivity.
  - intros Ht. destruct (Hthrow Ht) as [_ ->]. reflexivity.
  - apply Hle. intros env' r'. destruct_props props; vm_compute; lia.
  - eapply Nat.le_trans; [apply countReturned_le|].
    apply Hle. intros env' r'. destruct_props props; vm_compute; lia.
  - apply Hle. intros env' r'. destruct_props props; vm_compute; lia.
  - apply Hle. intros env' r'. destruct_props props; vm_compute; lia.
  - apply Hle. intros env' r'. destruct_props props; vm_compute; lia.
  - intros d Hd.
    pose proof (Lawful_initializeScene (Some canvas) props env r) as HL.
    rewrite Hd in HL. destruct HL as [_ Hall].
    rewrite !(countReturned_all_returned env _ _ Hall).
    rewrite (Lawful_Ok _ (Lawful_initializeScene (Some canvas) props)
               env r d Hd).
    destruct_props props; repeat split; reflexivity.
Qed.

Lemma each_resource_acquired_once_witness :
  let env := {| throws := isNewBabylonEngine;
                havokModule := havokInstance 0;
                xrResult := xrExperienceObj 0 |} in
  outcome (initializeScene (Some canvas1) propsFull quietEnv initialRefs)
  = Ok (Some cleanup) /\
  countReturned quietEnv isNewScene
    (trace (initializeScene (Some canvas1) propsFull quietEnv initialRefs)) = 1 /\
  throws env (NewBabylonEngine engine1) = true /\
  countReturned env isNewBabylonEngine
    (trace (initializeScene (Some canvas1) propsFull env initialRefs)) = 0 /\
  engine_current (refs (initializeScene (Some canvas1) propsFull env initialRefs))
  = None.
Proof.
  cbv zeta.
  pose proof (each_resource_acquired_once canvas1 propsFull quietEnv
                initialRefs) as H.
  cbv zeta in H. destruct H as (_ & _ & _ & _ & _ & _ & _ & _ & Hdone).
  pose proof (each_resource_acquired_once canvas1 propsFull
                {| throws := isNewBabylonEngine;
                   havokModule := havokInstance 0;
                   xrResult := xrExperienceObj 0 |} initialRefs) as H'.
  cbv zeta in H'. destruct H' as (_ & Hnone & Hrefs & _).
  split; [reflexivity|].
  split; [exact (proj1 (proj2 (Hdone (Some cleanup) eq_refl)))|].
  split; [reflexivity|]. split; [exact Hnone|].
  exact (Hrefs eq_refl).
Defined.

(** X16. The loading screen is installed only when a loader is supplied,
    on the engine just constructed and for the same canvas, and then
    before the render loop is registered; the render loop itself is
    registered before the scene is constructed. *)
Theorem loading_screen_before_render_loop
    (canvas : HTMLCanvasElement) (props : EngineProps) (env : Env) (r : Refs) :
  let t := trace (initializeScene (Some canvas) props env r) in
  (forall e' l', In (SetLoadingScreen e' l') t ->
     exists l, loader (engine props) = Some l /\
               e' = engineOf canvas props /\
               l' = mkCustomLoadingScreen canvas l) /\
  (loader (engine props) = None -> count isSetLoadingScreen t = 0) /\
  allBefore isSetLoadingScreen isRunRenderLoop t /\
  (forall l, loader (engine props) = Some l ->
             everyPrecededBy isSetLoadingScreen isRunRenderLoop t) /\
  allBefore isRunRenderLoop isNewScene t /\
  everyPrecededBy isRunRenderLoop isNewScene t.
Proof.
  intros t. subst t.
  split; [|split; [|split; [|split; [|split]]]].
  - intros e' l' H.
    apply (Lawful_In _ (Lawful_initializeScene (Some canvas) props)) in H.
    destruct_props props; cbn in H; in_cases H; try discriminate H;
      injection H as <- <-; eexists; repeat split; reflexivity.
  - intros Hno. apply Nat.le_0_r.
    apply initializeScene_count_le. intros env' r'.
    destruct_props props; try discriminate Hno; vm_compute; lia.
  - to_quiet_trace canvas props env r. destruct_props props; reflexivity.
  - intros l Hl. to_quiet_trace canvas props env r.
    destruct_props props; try discriminate Hl; reflexivity.
  - to_quiet_trace canvas props env r. destruct_props props; reflexivity.
  - to_quiet_trace canvas props env r. destruct_props props; reflexivity.
Qed.

Lemma loading_screen_before_render_loop_witness :
  loader (engine propsPlain) = None /\
  count isSetLoadingScreen
    (trace (initializeScene (Some canvas1) propsPlain quietEnv initialRefs)) = 0.
Proof.
  split; [reflexivity|].
  apply (loading_screen_before_render_loop canvas1 propsPlain quietEnv
           initialRefs).
  reflexivity.
Defined.

(** ** Listeners *)

Lemma bind_engine_current_null_run {B} (k : BabylonEngine -> M B) env r :
  engine_current r = None ->
  bind engine_current_nonnull k env r
  = mkRun [] r (Throw (TypeError "Cannot read properties of null")).
Proof.
  intros He. unfold bind at 1, engine_current_nonnull, bind, getRefs, throwError.
  cbn. rewrite He. reflexivity.
Qed.

Lemma cleanup_only_releases (env : Env) (r : Refs) (c : Call) :
  In c (trace (cleanup env r)) ->
  isRelease c = true /\ isDocumentListener c = false.
Proof.
  unfold cleanup. rewrite bind_call_run.
  destruct (throws env (WindowRemoveEventListener "resize" onResizeWindow)).
  { cbn. intros [<-|[]]. split; reflexivity. }
  cbn [trace]. destruct (engine_current r) as [e|] eqn:He.
  - rewrite bind_engine_current_nonnull_run with (e := e) by exact He.
    cbn [trace]. rewrite bind_call_run.
    destruct (throws env (EngineDispose e)).
    { cbn. intros H. in_cases H; subst c; split; reflexivity. }
    cbn [trace]. rewrite bind_getRefs_run. cbn [trace]. rewrite bind_call_run.
    destruct (throws env (ReactylonRender None (rootContainer_current r)));
      cbn; intros H; in_cases H; subst c; split; reflexivity.
  - rewrite bind_engine_current_null_run by exact He.
    cbn. intros [<-|[]]. split; reflexivity.
Qed.

(** X17. The inspector key listener is registered on the document only
    when the interactive-inspector flag is set to true (absent means off),
    as a non-capturing [keydown] listener and at most once; with the flag
    on it is registered whenever no collaborator throws.  The teardown
    closure makes release calls only and none on the document, so it never
    removes that listener. *)
Theorem inspector_listener_registered_and_kept
    (canvas : HTMLCanvasElement) (props : EngineProps) (env : Env) (r : Refs) :
  let t := trace (initializeScene (Some canvas) props env r) in
  let flag := isInteractiveInspector (sceneConfigOf props) in
  (forall type l capture, In (DocumentAddEventListener type l capture) t ->
     flag = Some true /\ type = "keydown" /\ l = onInspectorKeydown /\
     capture = false) /\
  count isDocumentListener t <= 1 /\
  (neverThrows env -> flag = Some true ->
   In (DocumentAddEventListener "keydown" onInspectorKeydown false) t) /\
  (forall env' r' c, In c (trace (cleanup env' r')) ->
     isRelease c = true /\ isDocumentListener c = false).
Proof.
  intros t flag. subst t flag.
  split; [|split; [|split]].
  - intros type l capture H.
    apply (Lawful_In _ (Lawful_initializeScene (Some canvas) props)) in H.
    destruct_props props; cbn in H; in_cases H; try discriminate H;
      injection H as <- <- <-; repeat split; reflexivity.
  - apply initializeScene_count_le. intros env' r'.
    destruct_props props; vm_compute; lia.
  - intros Hnt Hflag.
    rewrite (Lawful_neverThrows _ (Lawful_initializeScene (Some canvas) props)
               env r Hnt).
    destruct_props props; try discriminate Hflag;
      cbn; repeat (first [left; reflexivity | right]).
  - intros env' r' c. apply cleanup_only_releases.
Qed.

Lemma inspector_listener_registered_and_kept_witness :
  let props := {| engine := engineConfig1;
                  scene := Some {| sceneOptions := None;
                                   isInteractiveInspector := Some true;
                                   onSceneReady := None;
                                   isGui3DManager := Some false;
                                   xrDefaultExperienceOptions := None;
                                   physicsOptions := None |};
                  children := childrenProp 0 |} in
  neverThrows quietEnv /\
  In (DocumentAddEventListener "keydown" onInspectorKeydown false)
     (trace (initializeScene (Some canvas1) props quietEnv initialRefs)).
Proof.
  cbv zeta. split; [intros c; reflexivity|].
  apply (inspector_listener_registered_and_kept canvas1
           {| engine := engineConfig1;
              scene := Some {| sceneOptions := None;
                               isInteractiveInspector := Some true;
                               onSceneReady := None;
                               isGui3DManager := Some false;
                               xrDefaultExperienceOptions := None;
                               physicsOptions := None |};
              children := childrenProp 0 |} quietEnv initialRefs).
  - intros c. reflexivity.
  - reflexivity.
Defined.

(** ** Teardown, again *)

(** X18. The teardown closure has no run-once guard.  Run a second time
    after a first complete run, it removes the resize listener again,
    disposes the same engine again and renders the empty tree against a
    null root container (the first run cleared the ref); it is not a
    no-op. *)
Theorem teardown_closure_runs_again
    (canvas : HTMLCanvasElement) (props : EngineProps) (env env' : Env)
    (r : Refs) (d : M unit) :
  outcome (initializeScene (Some canvas) props env r) = Ok (Some d) ->
  neverThrows env' ->
  let first := d env' (refs (initializeScene (Some canvas) props env r)) in
  let second := d env' (refs first) in
  trace second
  = [WindowRemoveEventListener "resize" onResizeWindow;
     EngineDispose (engineOf canvas props);
     ReactylonRender None None] /\
  outcome second = Ok tt /\
  refs second = refs first /\
  engine_current (refs first) = Some (engineOf canvas props).
Proof.
  intros Hout Hnt first second. subst first second.
  destruct (initializeScene_Ok canvas props env r _ Hout) as [Hd Hr].
  injection Hd as ->. rewrite Hr.
  destruct (cleanup_run (engineOf canvas props) (Some (sceneOf canvas props))
              (Some (rootContainerOf canvas props)) env') as [_ Hfirst].
  cbv zeta in Hfirst. rewrite (Hfirst Hnt). cbn [refs].
  destruct (cleanup_run (engineOf canvas props) (Some (sceneOf canvas props))
              None env') as [_ Hsecond].
  cbv zeta in Hsecond. rewrite (Hsecond Hnt).
  repeat split; reflexivity.
Qed.

Lemma teardown_closure_runs_again_witness :
  let r1 := refs (cleanup quietEnv
                    (refs (initializeScene (Some canvas1) propsPlain
                             quietEnv initialRefs))) in
  outcome (initializeScene (Some canvas1) propsPlain quietEnv initialRefs)
  = Ok (Some cleanup) /\
  neverThrows quietEnv /\
  trace (cleanup quietEnv r1)
  = [WindowRemoveEventListener "resize" onResizeWindow;
     EngineDispose engine1;
     ReactylonRender None None].
Proof.
  cbv zeta. split; [reflexivity|]. split; [intros c; reflexivity|].
  apply (teardown_closure_runs_again canvas1 propsPlain quietEnv quietEnv
           initialRefs cleanup eq_refl).
  intros c. reflexivity.
Defined.

(** X19. Mounting through the effect callback never throws, even when the
    initialization does, and hands no destructor to the owning scope.  So
    the scope's teardown makes no call and changes no ref, and over mount
    and teardown together no listener is removed, no engine disposed and
    nothing unmounted. *)
Theorem unmount_through_effect_releases_nothing
    (canvasRef_current : option HTMLCanvasElement) (props : EngineProps)
    (env env' : Env) (r : Refs) :
  let mount := effectCallback canvasRef_current props env r in
  let unmount d := runDestructor d env' (refs mount) in
  trace mount = trace (initializeScene canvasRef_current props env r) /\
  refs mount = refs (initializeScene canvasRef_current props env r) /\
  outcome mount = Ok None /\
  (forall d, outcome mount = Ok d ->
     trace (unmount d) = [] /\
     refs (unmount d) = refs mount /\
     forall c, In c (trace mount ++ trace (unmount d)) -> isRelease c = false).
Proof.
  intros mount unmount. subst mount unmount.
  split; [reflexivity|]. split; [reflexivity|]. split; [reflexivity|].
  intros d Hd. cbn in Hd. injection Hd as <-.
  split; [reflexivity|]. split; [reflexivity|].
  intros c Hc. cbn [runDestructor ret trace] in Hc. rewrite app_nil_r in Hc.
  apply (initializeScene_never_releases canvasRef_current props env r c Hc).
Qed.

Lemma unmount_through_effect_releases_nothing_witness :
  outcome (effectCallback (Some canvas1) propsFull quietEnv initialRefs)
  = Ok None /\
  trace (runDestructor None quietEnv
           (refs (effectCallback (Some canvas1) propsFull quietEnv initialRefs)))
  = [].
Proof.
  pose proof (unmount_through_effect_releases_nothing (Some canvas1) propsFull
                quietEnv quietEnv initialRefs) as H.
  cbv zeta in H. destruct H as (_ & _ & Hout & Hun).
  split; [exact Hout|]. exact (proj1 (Hun None Hout)).
Defined.

(** ** The render loop and the resize listener *)

Lemma forEach_renderScene_abort (before after : list SceneState)
    (s : SceneState) (env : Env) (r : Refs) :
  (forall s', In s' before ->
              hasCameras s' && throws env (SceneRender (scene_obj s')) = false) ->
  hasCameras s && throws env (SceneRender (scene_obj s)) = true ->
  forEach renderScene (before ++ s :: after) env r
  = mkRun (flat_map (fun s' => trace (renderScene s' env r)) before
           ++ trace (renderScene s env r))
          r (Throw (ExternalError "call")).
Proof.
  intros Hbefore Hs. induction before as [|b before IH].
  - cbn [app flat_map forEach]. unfold bind.
    destruct (renderScene_run s env r) as (_ & Hr & Ho).
    rewrite Ho, Hs, Hr. reflexivity.
  - cbn [app flat_map forEach]. unfold bind.
    destruct (renderScene_run b env r) as (_ & Hr & Ho).
    rewrite Ho, Hr, (Hbefore b (or_introl eq_refl)).
    rewrite IH by (intros s' Hs'; apply Hbefore; right; exact Hs').
    cbn [trace refs outcome]. rewrite app_assoc. reflexivity.
Qed.

(** X20. A [render] call that throws ends the frame: the scenes before
    the failing one have been handled, the failing scene's warning (if any)
    and [render] call are the last calls of the frame, the scenes after it
    are neither warned about nor rendered, and the exception leaves the
    render-loop callback.  The refs are untouched. *)
Theorem throwing_render_ends_frame
    (scenes : BabylonEngine -> list SceneState) (e : BabylonEngine)
    (before after : list SceneState) (s : SceneState)
    (env : Env) (r : Refs) :
  engine_current r = Some e ->
  scenes e = before ++ s :: after ->
  (forall s', In s' before -> hasCameras s' = true ->
              throws env (SceneRender (scene_obj s')) = false) ->
  hasCameras s = true ->
  throws env (SceneRender (scene_obj s)) = true ->
  let calls s' :=
    (if isNull (activeCamera s') then [ConsoleWarn "no active camera.."] else [])
    ++ (if hasCameras s' then [SceneRender (scene_obj s')] else []) in
  renderLoopCallback scenes env r
  = mkRun (flat_map calls before ++ calls s) r (Throw (ExternalError "call")).
Proof.
  intros He Hscenes Hbefore Hcam Hthrow calls. subst calls.
  unfold renderLoopCallback.
  rewrite bind_engine_current_nonnull_run with (e := e) by exact He.
  rewrite Hscenes, forEach_renderScene_abort.
  - cbn [trace refs outcome]. f_equal. f_equal.
    + apply flat_map_ext. intros s'. apply (renderScene_run s' env r).
    + apply (renderScene_run s env r).
  - intros s' Hs'. destruct (hasCameras s') eqn:Hc; [|reflexivity].
    cbn. apply Hbefore; assumption.
  - rewrite Hcam, Hthrow. reflexivity.
Qed.

(** Two scenes with a camera; rendering the first one throws. *)
Lemma throwing_render_ends_frame_witness :
  let first := {| scene_obj := scene1;
                  activeCamera := Some (cameraObj 0);
                  cameras := Some [cameraObj 0] |} in
  let second := {| scene_obj := mkScene engine1 (Some (sceneOptionsBag 1));
                   activeCamera := Some (cameraObj 1);
                   cameras := Some [cameraObj 1] |} in
  let env := {| throws := fun c => match c with
                                   | SceneRender (mkScene _ None) => true
                                   | _ => false
                                   end;
                havokModule := havokInstance 0;
                xrResult := xrExperienceObj 0 |} in
  renderLoopCallback (fun _ => [first; second]) env refsWithEngine
  = mkRun [SceneRender scene1] refsWithEngine (Throw (ExternalError "call")).
Proof.
  cbv zeta.
  apply (throwing_render_ends_frame
           (fun _ => [{| scene_obj := scene1;
                         activeCamera := Some (cameraObj 0);
                         cameras := Some [cameraObj 0] |};
                      {| scene_obj := mkScene engine1 (Some (sceneOptionsBag 1));
                         activeCamera := Some (cameraObj 1);
                         cameras := Some [cameraObj 1] |}])
           engine1 []
           [{| scene_obj := mkScene engine1 (Some (sceneOptionsBag 1));
               activeCamera := Some (cameraObj 1);
               cameras := Some [cameraObj 1] |}]
           {| scene_obj := scene1;
              activeCamera := Some (cameraObj 0);
              cameras := Some [cameraObj 0] |}).
  - reflexivity.
  - reflexivity.
  - intros s' [].
  - reflexivity.
  - reflexivity.
Defined.

(** X21. Once an initialization has completed, the resize listener it
    registered resizes the engine it constructed, with that single call
    and without touching the refs.  Run with [engine.current] still null,
    the listener throws a [TypeError] before making any call. *)
Theorem resize_listener_resizes_constructed_engine
    (canvas : HTMLCanvasElement) (props : EngineProps) (env env' : Env)
    (r : Refs) :
  (forall d, outcome (initializeScene (Some canvas) props env r) = Ok d ->
     let run := runOnResizeWindow env'
                  (refs (initializeScene (Some canvas) props env r)) in
     trace run = [EngineResize (engineOf canvas props)] /\
     refs run = refs (initializeScene (Some canvas) props env r) /\
     (throws env' (EngineResize (engineOf canvas props)) = false ->
      outcome run = Ok tt)) /\
  (forall r0, engine_current r0 = None ->
     runOnResizeWindow env' r0
     = mkRun [] r0 (Throw (TypeError "Cannot read properties of null"))).
Proof.
  split.
  - intros d Hd run. subst run.
    destruct (initializeScene_Ok canvas props env r d Hd) as [_ Hr].
    rewrite Hr. unfold runOnResizeWindow.
    rewrite bind_engine_current_nonnull_run
      with (e := engineOf canvas props) by reflexivity.
    cbn [trace refs outcome]. unfold call. cbn [trace refs outcome].
    repeat split. intros ->. reflexivity.
  - intros r0 H0. unfold runOnResizeWindow.
    apply bind_engine_current_null_run. exact H0.
Qed.

Lemma resize_listener_resizes_constructed_engine_witness :
  outcome (initializeScene (Some canvas1) propsPlain quietEnv initialRefs)
  = Ok (Some cleanup) /\
  trace (runOnResizeWindow quietEnv
           (refs (initializeScene (Some canvas1) propsPlain quietEnv initialRefs)))
  = [EngineResize engine1] /\
  engine_current initialRefs = None /\
  runOnResizeWindow quietEnv initialRefs
  = mkRun [] initialRefs (Throw (TypeError "Cannot read properties of null")).
Proof.
  destruct (resize_listener_resizes_constructed_engine canvas1 propsPlain
              quietEnv quietEnv initialRefs) as [Hafter Hbefore].
  split; [reflexivity|]. split.
  - exact (proj1 (Hafter (Some cleanup) eq_refl)).
  - split; [reflexivity|]. apply Hbefore. reflexivity.
Defined.

(** ** The hooks, under the mounted tree *)

(** X22. Under the tree [initializeScene] mounts, the hooks give the
    children what was just built: [useEngine] the engine, [useCanvas] the
    canvas, [useScene] the scene, which is also the scene of the root
    container passed in the same render call, the ready flag is set, and
    [useXrExperience] gives the negotiated experience or [null].  After a
    completed initialization these are the values held by [engine.current]
    and [scene.current].  With no provider above, every hook gives [null]. *)
Theorem hooks_see_the_mounted_resources
    (canvas : HTMLCanvasElement) (props : EngineProps) (env : Env) (r : Refs) :
  let run := initializeScene (Some canvas) props env r in
  (forall el c, In (ReactylonRender (Some el) c) (trace run) ->
     let ctx := contextsOfChildren noProvider el in
     useEngine ctx = Some (engineOf canvas props) /\
     useCanvas ctx = Some canvas /\
     useScene ctx = Some (sceneOf canvas props) /\
     useScene ctx = option_map rc_scene c /\
     sceneReady (sceneContext ctx) = true /\
     useXrExperience ctx = xrExperienceOf env props /\
     (forall d, outcome run = Ok d ->
        useEngine ctx = engine_current (refs run) /\
        useScene ctx = scene_current (refs run))) /\
  useEngine noProvider = None /\ useCanvas noProvider = None /\
  useScene noProvider = None /\ useXrExperience noProvider = None.
Proof.
  intros run. subst run.
  split; [|repeat split; reflexivity].
  intros el c H ctx. subst ctx.
  assert (Hel : el = providers (engineOf canvas props) canvas
                       (sceneOf canvas props) (xrExperienceOf env props)
                       (children props)
                /\ c = Some (rootContainerOf canvas props)).
  { apply (Lawful_In _ (Lawful_initializeScene (Some canvas) props)) in H.
    destruct_props props; cbn in H; in_cases H; try discriminate H;
      injection H as <- <-; split; reflexivity. }
  destruct Hel as [-> ->].
  do 6 (split; [reflexivity|]).
  intros d Hd. destruct (initializeScene_Ok canvas props env r d Hd) as [_ Hr].
  rewrite Hr. split; reflexivity.
Qed.

Lemma hooks_see_the_mounted_resources_witness :
  exists el c,
    In (ReactylonRender (Some el) c)
       (trace (initializeScene (Some canvas1) propsFull quietEnv initialRefs)) /\
    useEngine (contextsOfChildren noProvider el) = Some engine1 /\
    useXrExperience (contextsOfChildren noProvider el) = Some (xrExperienceObj 0).
Proof.
  exists (providers engine1 canvas1 scene1 (Some (xrExperienceObj 0))
            (childrenProp 0)),
         (Some (rootContainerOf canvas1 propsFull)).
  assert (Hin : In (ReactylonRender
                      (Some (providers engine1 canvas1 scene1
                               (Some (xrExperienceObj 0)) (childrenProp 0)))
                      (Some (rootContainerOf canvas1 propsFull)))
                   (trace (initializeScene (Some canvas1) propsFull quietEnv
                             initialRefs))).
  { cbn. do 10 right. left. reflexivity. }
  split; [exact Hin|].
  pose proof (hooks_see_the_mounted_resources canvas1 propsFull quietEnv
                initialRefs) as H.
  cbv zeta in H. destruct H as [H _].
  destruct (H _ _ Hin) as (He & _ & _ & _ & _ & Hxr & _).
  split; [exact He|exact Hxr].
Defined.

End EngineFacts.

(* ===================================================================== *)
(** * Further properties of the parameter-name-recovery utility *)
(* ===================================================================== *)

Section ParamsExtras.
Import Params ParamSyntax.

Lemma mapL_namedParams (sps : list NamedParam) :
  mapL paramName (map namedParamNode sps)
  = ([], map (fun p => Some (namedParamName p)) sps).
Proof.
  induction sps as [|p sps IH]; [reflexivity|].
  cbn [map mapL]. rewrite IH. destruct p; reflexivity.
Qed.

Lemma removeNull_map_Some (l : list string) :
  removeNull (map Some l) = l.
Proof. induction l as [|x l IH]; [reflexivity|]. cbn. rewrite IH. reflexivity. Qed.

Lemma traverse_params (fn : Node) (ps : list Node) :
  functionNode fn = Some ps ->
  traverse fn =
  (concat (map (fun p => fst (paramName p)) ps),
   Some (map (fun p => snd (paramName p)) ps)).
Proof.
  assert (Hmap : forall l, mapL paramName l =
            (concat (map (fun p => fst (paramName p)) l),
             map (fun p => snd (paramName p)) l)).
  { induction l as [|p l IH]; [reflexivity|].
    cbn [mapL map concat]. rewrite IH.
    destruct (paramName p) as [w y]. reflexivity. }
  destruct fn; cbn; try discriminate;
    intros [= ->]; rewrite Hmap; reflexivity.
Qed.

(** X1. For a function declaration or expression whose parameters are all
    of the forms [x], [x = default] and [...x], [getFunctionParams] returns
    the parameter names, one per parameter and in declaration order, and
    logs nothing; statements after the function are ignored. *)
Theorem named_parameters_recovered_in_order
    (fn : Node) (sps : list NamedParam) (rest : list Node) :
  functionNode fn = Some (map namedParamNode sps) ->
  getFunctionParams (Program (fn :: rest)) = ([], Ok (map namedParamName sps)).
Proof.
  intros Hfn. cbn [getFunctionParams prop_body].
  assert (Ht : traverse fn = ([], Some (map (fun p => Some (namedParamName p)) sps))).
  { destruct fn; cbn in Hfn |- *; try discriminate Hfn;
      injection Hfn as ->; rewrite mapL_namedParams; reflexivity. }
  rewrite Ht. cbn [orEmpty].
  rewrite <- (map_map namedParamName Some), removeNull_map_Some. reflexivity.
Qed.

Lemma named_parameters_recovered_in_order_witness :
  getFunctionParams
    (Program [FunctionDeclaration (Identifier "f")
                [Identifier "a";
                 AssignmentPattern (Identifier "b") (Literal "1");
                 RestElement (Identifier "rest")]
                (BlockStatement [])])
  = ([], Ok ["a"; "b"; "rest"]).
Proof.
  apply (named_parameters_recovered_in_order
           (FunctionDeclaration (Identifier "f")
              [Identifier "a";
               AssignmentPattern (Identifier "b") (Literal "1");
               RestElement (Identifier "rest")]
              (BlockStatement []))
           [PlainParam "a"; DefaultParam "b" (Literal "1"); RestParam "rest"]
           [] eq_refl).
Defined.

(** X2. [getFunctionParams] looks at the first statement of the program
    only.  When that statement is not a function declaration or function
    expression (an arrow function, which parses to an expression statement,
    is the common case) it returns the empty list and logs nothing; it
    throws exactly when the program has no statement at all. *)
Theorem non_function_source_gives_no_parameters (body : list Node) :
  (forall n0 rest, body = n0 :: rest -> functionNode n0 = None ->
                   getFunctionParams (Program body) = ([], Ok [])) /\
  (forall n0 rest rest', body = n0 :: rest ->
                   getFunctionParams (Program body)
                   = getFunctionParams (Program (n0 :: rest'))) /\
  ((exists e, snd (getFunctionParams (Program body)) = Throw e) <-> body = []).
Proof.
  split; [|split].
  - intros n0 rest -> Hn. destruct n0; cbn in Hn |- *; try discriminate Hn;
      reflexivity.
  - intros n0 rest rest' ->. reflexivity.
  - split.
    + intros [e He]. destruct body as [|n0 rest]; [reflexivity|].
      cbn [getFunctionParams prop_body] in He.
      destruct (traverse n0) as [w ps]. discriminate He.
    + intros ->. eexists. reflexivity.
Qed.

Lemma non_function_source_gives_no_parameters_witness :
  getFunctionParams
    (Program [ExpressionStatement
                (ArrowFunctionExpression [Identifier "a"] (BlockStatement []))])
  = ([], Ok []).
Proof.
  apply (proj1 (non_function_source_gives_no_parameters
                  [ExpressionStatement
                     (ArrowFunctionExpression [Identifier "a"] (BlockStatement []))])
           _ [] eq_refl eq_refl).
Defined.

Lemma concat_warnings_length (ps : list Node) :
  length (concat (map (fun p => fst (paramName p)) ps))
  = length (filter unknownParameterType ps).
Proof.
  induction ps as [|p ps IH]; [reflexivity|].
  cbn [map concat filter]. rewrite length_app, IH.
  destruct p; reflexivity.
Qed.

Lemma removeNull_In_iff (n : string) (l : list (option string)) :
  In n (removeNull l) <-> In (Some n) l.
Proof.
  induction l as [|[x|] l IH]; cbn.
  - tauto.
  - rewrite IH. split; intros [H|H]; auto; left; congruence.
  - rewrite IH. split; [auto|]. intros [H|H]; [discriminate|assumption].
Qed.

(** X3. For a parsed function with parameters [ps], [getFunctionParams]
    returns normally; the names it returns are exactly the names
    [traverse] recovers from some parameter; it returns one name less than
    there are parameters for each parameter without a recoverable name; and
    it logs one warning for each parameter of an unknown type and none for
    the others. *)
Theorem returned_names_and_warnings_counted
    (fn : Node) (ps rest : list Node) :
  functionNode fn = Some ps ->
  exists w names,
    getFunctionParams (Program (fn :: rest)) = (w, Ok names) /\
    (forall n, In n names <->
               exists p, In p ps /\ snd (paramName p) = Some n) /\
    length names + length (filter hasNoName ps) = length ps /\
    length w = length (filter unknownParameterType ps) /\
    length w <= length (filter hasNoName ps).
Proof.
  intros Hfn. pose proof (traverse_params fn ps Hfn) as Ht.
  exists (concat (map (fun p => fst (paramName p)) ps)),
         (removeNull (map (fun p => snd (paramName p)) ps)).
  split; [|split; [|split; [|split]]].
  - cbn [getFunctionParams prop_body]. rewrite Ht. reflexivity.
  - intros n. rewrite removeNull_In_iff, in_map_iff.
    split; intros (p & H1 & H2); exists p; auto.
  - clear. induction ps as [|p ps IH]; [reflexivity|].
    cbn [map filter]. unfold hasNoName at 1.
    destruct (snd (paramName p)); cbn [removeNull length]; lia.
  - apply concat_warnings_length.
  - rewrite concat_warnings_length. clear.
    induction ps as [|p ps IH]; [apply Nat.le_refl|].
    cbn [filter]. destruct (unknownParameterType p) eqn:Hu.
    + assert (Hn : hasNoName p = true) by (destruct p; try discriminate Hu; reflexivity).
      rewrite Hn. cbn [length]. lia.
    + destruct (hasNoName p); cbn [length]; lia.
Qed.

Lemma returned_names_and_warnings_counted_witness :
  exists w names,
    getFunctionParams (Program [exampleFunction]) = (w, Ok names) /\
    length names + 1 = 3 /\ length w = 1.
Proof.
  destruct (returned_names_and_warnings_counted exampleFunction
              [Identifier "a";
               ObjectPattern [Property (Identifier "b") (Identifier "b")];
               Identifier "c"] [] eq_refl)
    as (w & names & Hrun & _ & Hlen & Hw & _).
  exists w, names. repeat split; assumption.
Defined.

Lemma find_first_constructor (before after : list Node) (m : Node) :
  (forall x, In x before -> isConstructorMethod x = false) ->
  isConstructorMethod m = true ->
  find isConstructorMethod (before ++ m :: after) = Some m.
Proof.
  intros Hbefore Hm. induction before as [|x before IH]; cbn [app find].
  - rewrite Hm. reflexivity.
  - rewrite (Hbefore x (or_introl eq_refl)).
    apply IH. intros y Hy. apply Hbefore. right. exact Hy.
Qed.

(** X4. A class constructor gives what a function declaration with the
    same parameter list gives: for a class whose first constructor method
    has parameters [ps], whatever members come before it (none of them a
    constructor) and after it, [getClassConstructorParams] returns the
    names and logs the warnings that [getFunctionParams] returns and logs
    for [function f(ps) {}]. *)
Theorem constructor_params_are_function_params
    (id fid key cbody fbody : Node) (sc : option Node)
    (before after rest rest' ps : list Node) :
  (forall x, In x before -> isConstructorMethod x = false) ->
  getClassConstructorParams
    (Program
       (ClassDeclaration id sc
          (ClassBody
             (before
              ++ MethodDefinition "constructor" key
                   (FunctionExpression None ps cbody)
              :: after))
        :: rest))
  = getFunctionParams (Program (FunctionDeclaration fid ps fbody :: rest')).
Proof.
  intros Hbefore. cbn [getClassConstructorParams getFunctionParams prop_body].
  rewrite (find_first_constructor before after
             (MethodDefinition "constructor" key
                (FunctionExpression None ps cbody))
             Hbefore eq_refl).
  reflexivity.
Qed.

(** [class A { m(x) {} constructor(a, ...more) {} }] against
    [function f(a, ...more) {}]. *)
Lemma constructor_params_are_function_params_witness :
  getClassConstructorParams
    (Program [ClassDeclaration (Identifier "A") None
                (ClassBody
                   [MethodDefinition "method" (Identifier "m")
                      (FunctionExpression None [Identifier "x"]
                         (BlockStatement []));
                    MethodDefinition "constructor" (Identifier "constructor")
                      (FunctionExpression None
                         [Identifier "a"; RestElement (Identifier "more")]
                         (BlockStatement []))])])
  = getFunctionParams
      (Program [FunctionDeclaration (Identifier "f")
                  [Identifier "a"; RestElement (Identifier "more")]
                  (BlockStatement [])]) /\
  getFunctionParams
      (Program [FunctionDeclaration (Identifier "f")
                  [Identifier "a"; RestElement (Identifier "more")]
                  (BlockStatement [])])
  = ([], Ok ["a"; "more"]).
Proof.
  split; [|reflexivity].
  apply (constructor_params_are_function_params
           (Identifier "A") (Identifier "f") (Identifier "constructor")
           (BlockStatement []) (BlockStatement []) None
           [MethodDefinition "method" (Identifier "m")
              (FunctionExpression None [Identifier "x"] (BlockStatement []))]
           [] [] []
           [Identifier "a"; RestElement (Identifier "more")]).
  intros x [<-|[]]. reflexivity.
Defined.

(** X5. [getClassConstructorParams] returns normally exactly when the
    program's first statement has a body node whose own body is an array
    holding a constructor method definition; for every other program (no
    statement, a statement without such a body, a function-style
    constructor, a class without constructor) it throws a [TypeError]. *)
Theorem constructor_lookup_succeeds_iff (body : list Node) :
  (exists names, snd (getClassConstructorParams (Program body)) = Ok names) <->
  (exists n0 rest b members kind key value,
      body = n0 :: rest /\
      prop_body n0 = PNode b /\
      prop_body b = PArray members /\
      find isConstructorMethod members = Some (MethodDefinition kind key value) /\
      String.eqb kind "constructor" = true).
Proof.
  split.
  - intros [names H]. cbn [getClassConstructorParams prop_body] in H.
    destruct body as [|n0 rest]; [discriminate H|].
    destruct (prop_body n0) as [b|l|] eqn:Hb; try discriminate H.
    destruct (prop_body b) as [b'|members|] eqn:Hm; try discriminate H.
    destruct (find isConstructorMethod members) as [m|] eqn:Hf;
      [|discriminate H].
    pose proof (find_some _ _ Hf) as [_ Hc].
    destruct m; try discriminate Hc.
    exists n0, rest, b, members, kind, m1, m2. repeat split; assumption.
  - intros (n0 & rest & b & members & kind & key & value
            & -> & Hb & Hm & Hf & _).
    cbn [getClassConstructorParams prop_body]. rewrite Hb, Hm, Hf.
    cbn [prop_value]. destruct (traverse value) as [w ps].
    eexists. reflexivity.
Qed.

Lemma constructor_lookup_succeeds_iff_witness :
  exists names,
    snd (getClassConstructorParams
           (Program [ClassDeclaration (Identifier "A") None
                       (ClassBody
                          [MethodDefinition "constructor" (Identifier "constructor")
                             (FunctionExpression None [Identifier "a"]
                                (BlockStatement []))])]))
    = Ok names.
Proof.
  apply (proj2 (constructor_lookup_succeeds_iff
                  [ClassDeclaration (Identifier "A") None
                     (ClassBody
                        [MethodDefinition "constructor" (Identifier "constructor")
                           (FunctionExpression None [Identifier "a"]
                              (BlockStatement []))])])).
  do 7 eexists. repeat split; reflexivity.
Defined.

Lemma removeNull_app (l1 l2 : list (option string)) :
  removeNull (l1 ++ l2) = removeNull l1 ++ removeNull l2.
Proof.
  induction l1 as [|[x|] l1 IH]; cbn; [reflexivity| |]; rewrite IH; reflexivity.
Qed.

(** X6. Parameters are handled one by one and in order: for a function
    whose parameter list is [ps1] followed by [ps2], the names returned
    are those returned for [ps1] followed by those returned for [ps2], and
    likewise for the warnings.  A parameter never changes what is
    recovered for another one. *)
Theorem parameters_handled_independently
    (fn fn1 fn2 : Node) (ps1 ps2 rest : list Node) :
  functionNode fn = Some (ps1 ++ ps2) ->
  functionNode fn1 = Some ps1 ->
  functionNode fn2 = Some ps2 ->
  exists w1 names1 w2 names2,
    getFunctionParams (Program (fn1 :: rest)) = (w1, Ok names1) /\
    getFunctionParams (Program (fn2 :: rest)) = (w2, Ok names2) /\
    getFunctionParams (Program (fn :: rest))
    = (w1 ++ w2, Ok (names1 ++ names2)).
Proof.
  intros H H1 H2.
  exists (concat (map (fun p => fst (paramName p)) ps1)),
         (removeNull (map (fun p => snd (paramName p)) ps1)),
         (concat (map (fun p => fst (paramName p)) ps2)),
         (removeNull (map (fun p => snd (paramName p)) ps2)).
  cbn [getFunctionParams prop_body].
  rewrite (traverse_params fn _ H), (traverse_params fn1 _ H1),
    (traverse_params fn2 _ H2).
  cbn [orEmpty]. rewrite !map_app, concat_app, removeNull_app.
  repeat split; reflexivity.
Qed.

Lemma parameters_handled_independently_witness :
  getFunctionParams
    (Program [FunctionDeclaration (Identifier "f")
                ([Identifier "a"; ArrayPattern [Identifier "x"]]
                 ++ [RestElement (Identifier "more")])
                (BlockStatement [])])
  = (["Unknown parameter type: ArrayPattern"] ++ [], Ok (["a"] ++ ["more"])).
Proof.
  destruct (parameters_handled_independently
              (FunctionDeclaration (Identifier "f")
                 ([Identifier "a"; ArrayPattern [Identifier "x"]]
                  ++ [RestElement (Identifier "more")])
                 (BlockStatement []))
              (FunctionExpression None
                 [Identifier "a"; ArrayPattern [Identifier "x"]]
                 (BlockStatement []))
              (FunctionExpression None [RestElement (Identifier "more")]
                 (BlockStatement []))
              [Identifier "a"; ArrayPattern [Identifier "x"]]
              [RestElement (Identifier "more")] [] eq_refl eq_refl eq_refl)
    as (w1 & n1 & w2 & n2 & H1 & H2 & H).
  cbn in H1, H2. injection H1 as <- <-. injection H2 as <- <-. exact H.
Defined.

End ParamsExtras.

(* ===================================================================== *)
(** * Properties of the string helpers *)
(* ===================================================================== *)

Section HelpersFacts.
Import Helpers.

(** ** Case mapping of one ASCII code unit *)

Ltac each_unit c := destruct c as [[] [] [] [] [] [] [] []].

Lemma upperUnit_idem (c : ascii) : upperUnit (upperUnit c) = upperUnit c.
Proof. each_unit c; reflexivity. Qed.

Lemma lowerUnit_idem (c : ascii) : lowerUnit (lowerUnit c) = lowerUnit c.
Proof. each_unit c; reflexivity. Qed.

Lemma upperUnit_lowerUnit (c : ascii) : upperUnit (lowerUnit c) = upperUnit c.
Proof. each_unit c; reflexivity. Qed.

Lemma lowerUnit_upperUnit (c : ascii) : lowerUnit (upperUnit c) = lowerUnit c.
Proof. each_unit c; reflexivity. Qed.

Lemma upperUnit_fixed (c : ascii) : upperUnit c = c <-> isLowerLetter c = false.
Proof. each_unit c; vm_compute; split; congruence. Qed.

Lemma lowerUnit_fixed (c : ascii) : lowerUnit c = c <-> isUpperLetter c = false.
Proof. each_unit c; vm_compute; split; congruence. Qed.

Lemma upperUnit_not_lower (c : ascii) : isLowerLetter (upperUnit c) = false.
Proof. each_unit c; reflexivity. Qed.

Lemma lowerUnit_not_upper (c : ascii) : isUpperLetter (lowerUnit c) = false.
Proof. each_unit c; reflexivity. Qed.

Lemma upperUnit_ascii (c : ascii) :
  (nat_of_ascii c <? 128)%nat = true ->
  (nat_of_ascii (upperUnit c) <? 128)%nat = true.
Proof. each_unit c; vm_compute; congruence. Qed.

Lemma lowerUnit_ascii (c : ascii) :
  (nat_of_ascii c <? 128)%nat = true ->
  (nat_of_ascii (lowerUnit c) <? 128)%nat = true.
Proof. each_unit c; vm_compute; congruence. Qed.

Lemma capitalize_cons (c : ascii) (rest : string) :
  capitalizeFirstLetter (String c rest) = String (upperUnit c) rest.
Proof. reflexivity. Qed.

Lemma lowercase_cons (c : ascii) (rest : string) :
  lowercaseFirstLetter (String c rest) = String (lowerUnit c) rest.
Proof. reflexivity. Qed.

(** X7. For a string whose first character is ASCII,
    [capitalizeFirstLetter] and [lowercaseFirstLetter] change at most the
    first character: the length and everything after the first character
    are kept, the empty string is mapped to itself and nothing else is,
    and the result does not start with a lower-case (respectively
    upper-case) letter. *)
Theorem first_letter_helpers_touch_only_first_character (str : string) :
  asciiHead str = true ->
  String.length (capitalizeFirstLetter str) = String.length str /\
  String.length (lowercaseFirstLetter str) = String.length str /\
  slice1 (capitalizeFirstLetter str) = slice1 str /\
  slice1 (lowercaseFirstLetter str) = slice1 str /\
  (capitalizeFirstLetter str = "" <-> str = "") /\
  (lowercaseFirstLetter str = "" <-> str = "") /\
  startsLower (capitalizeFirstLetter str) = false /\
  startsUpper (lowercaseFirstLetter str) = false /\
  asciiHead (capitalizeFirstLetter str) = true /\
  asciiHead (lowercaseFirstLetter str) = true.
Proof.
  intros Hascii. destruct str as [|c rest].
  - repeat split; reflexivity.
  - rewrite capitalize_cons, lowercase_cons. cbn in Hascii.
    repeat split; try reflexivity; try discriminate.
    + apply upperUnit_not_lower.
    + apply lowerUnit_not_upper.
    + apply upperUnit_ascii, Hascii.
    + apply lowerUnit_ascii, Hascii.
Qed.

Lemma first_letter_helpers_touch_only_first_character_witness :
  capitalizeFirstLetter "mesh" = "Mesh" /\
  slice1 (capitalizeFirstLetter "mesh") = "esh" /\
  startsLower (capitalizeFirstLetter "mesh") = false.
Proof.
  destruct (first_letter_helpers_touch_only_first_character "mesh" eq_refl)
    as (_ & _ & Htail & _ & _ & _ & Hlow & _).
  split; [reflexivity|]. split; [exact Htail|exact Hlow].
Defined.

(** X8. On strings whose first character is ASCII, each helper is
    idempotent and absorbs the other: capitalizing after lower-casing is
    capitalizing, and lower-casing after capitalizing is lower-casing. *)
Theorem first_letter_helpers_absorb (str : string) :
  asciiHead str = true ->
  capitalizeFirstLetter (capitalizeFirstLetter str) = capitalizeFirstLetter str /\
  lowercaseFirstLetter (lowercaseFirstLetter str) = lowercaseFirstLetter str /\
  capitalizeFirstLetter (lowercaseFirstLetter str) = capitalizeFirstLetter str /\
  lowercaseFirstLetter (capitalizeFirstLetter str) = lowercaseFirstLetter str.
Proof.
  intros _. destruct str as [|c rest]; [repeat split; reflexivity|].
  repeat (rewrite capitalize_cons || rewrite lowercase_cons).
  rewrite upperUnit_idem, lowerUnit_idem, upperUnit_lowerUnit,
    lowerUnit_upperUnit.
  repeat split; reflexivity.
Qed.

Lemma first_letter_helpers_absorb_witness :
  capitalizeFirstLetter (lowercaseFirstLetter "ArcRotateCamera")
  = "ArcRotateCamera".
Proof.
  rewrite (proj1 (proj2 (proj2 (first_letter_helpers_absorb
                                  "ArcRotateCamera" eq_refl)))).
  reflexivity.
Defined.

(** X9. On strings whose first character is ASCII,
    [lowercaseFirstLetter] undoes [capitalizeFirstLetter] exactly on the
    strings that do not start with an upper-case letter, and
    [capitalizeFirstLetter] undoes [lowercaseFirstLetter] exactly on those
    that do not start with a lower-case letter; these are also the strings
    each helper leaves unchanged. *)
Theorem first_letter_round_trip (str : string) :
  asciiHead str = true ->
  (lowercaseFirstLetter (capitalizeFirstLetter str) = str
   <-> startsUpper str = false) /\
  (capitalizeFirstLetter (lowercaseFirstLetter str) = str
   <-> startsLower str = false) /\
  (capitalizeFirstLetter str = str <-> startsLower str = false) /\
  (lowercaseFirstLetter str = str <-> startsUpper str = false).
Proof.
  intros _. destruct str as [|c rest].
  - repeat split; reflexivity.
  - repeat (rewrite capitalize_cons || rewrite lowercase_cons).
    rewrite lowerUnit_upperUnit, upperUnit_lowerUnit. cbn [startsUpper startsLower].
    rewrite <- lowerUnit_fixed, <- upperUnit_fixed.
    repeat split; intros H; congruence.
Qed.

Lemma first_letter_round_trip_witness :
  lowercaseFirstLetter (capitalizeFirstLetter "box") = "box" /\
  lowercaseFirstLetter (capitalizeFirstLetter "Box") <> "Box".
Proof.
  destruct (first_letter_round_trip "box" eq_refl) as [[_ Hback] _].
  destruct (first_letter_round_trip "Box" eq_refl) as [[Hfwd _] _].
  split; [exact (Hback eq_refl)|].
  intros H. specialize (Hfwd H). discriminate Hfwd.
Defined.

(** ** Joining a base path and a file name *)

Lemma append_length (a b : string) :
  String.length (a ++ b) = String.length a + String.length b.
Proof. induction a as [|c a IH]; cbn; [reflexivity|]. rewrite IH. reflexivity. Qed.

Lemma append_assoc (a b c : string) : ((a ++ b) ++ c = a ++ (b ++ c))%string.
Proof. induction a as [|x a IH]; cbn; [reflexivity|]. rewrite IH. reflexivity. Qed.

Lemma append_cancel_l (a b c : string) : (a ++ b = a ++ c)%string -> b = c.
Proof.
  induction a as [|x a IH]; cbn; [auto|]. intros H. injection H as H. auto.
Qed.

(** X10. [getRelativeFileName] returns the file name unchanged exactly when
    the base path is empty; otherwise it puts the base path and one slash
    in front of it.  In both cases the file name is the end of the result,
    the result is as long as the file name plus, for a non-empty base, the
    base and the slash, and for a fixed base path different file names
    give different results. *)
Theorem relative_file_name_shape (basePath file : string) :
  (exists front, getRelativeFileName basePath file = (front ++ file)%string /\
                 (front = "" <-> basePath = "") /\
                 (basePath <> "" -> front = (basePath ++ "/")%string)) /\
  String.length (getRelativeFileName basePath file)
  = String.length file
    + (if String.eqb basePath "" then 0 else String.length basePath + 1) /\
  (getRelativeFileName basePath file = file <-> basePath = "") /\
  (forall file', getRelativeFileName basePath file
                 = getRelativeFileName basePath file' -> file = file').
Proof.
  destruct basePath as [|c b].
  - split; [|split; [|split]].
    + exists "". repeat split; auto. intros H. contradiction H. reflexivity.
    + cbn. lia.
    + split; reflexivity.
    + intros file' H. exact H.
  - assert (Hrun : forall f, getRelativeFileName (String c b) f
                             = ((String c b ++ "/") ++ f)%string).
    { intros f. unfold getRelativeFileName. rewrite append_assoc. reflexivity. }
    split; [|split; [|split]].
    + exists (String c b ++ "/")%string. rewrite Hrun.
      repeat split; try discriminate; auto.
    + rewrite Hrun, !append_length. cbn. lia.
    + split; [|discriminate]. intros H.
      apply (f_equal String.length) in H.
      rewrite Hrun, !append_length in H. cbn in H. lia.
    + intros file' H. rewrite !Hrun in H. eapply append_cancel_l. exact H.
Qed.

Lemma relative_file_name_shape_witness :
  getRelativeFileName "" "index.ts" = "index.ts" /\
  getRelativeFileName "meshes" "index.ts" = "meshes/index.ts".
Proof.
  destruct (relative_file_name_shape "" "index.ts") as (_ & _ & [_ Hempty] & _).
  destruct (relative_file_name_shape "meshes" "index.ts")
    as ((front & Hrun & _ & Hfront) & _).
  split; [exact (Hempty eq_refl)|].
  rewrite Hrun, Hfront by discriminate. reflexivity.
Defined.

(** X11. Joining is associative whenever the base is empty or the middle
    segment is not: [join (join a b) c = join a (join b c)].  With a
    non-empty base and an empty middle segment the two differ: joining
    from the left leaves a doubled slash. *)
Theorem relative_file_name_nesting (a b c : string) :
  (a = "" \/ b <> "" ->
   getRelativeFileName (getRelativeFileName a b) c
   = getRelativeFileName a (getRelativeFileName b c)) /\
  (a <> "" -> b = "" ->
   getRelativeFileName (getRelativeFileName a b) c = (a ++ "//" ++ c)%string /\
   getRelativeFileName a (getRelativeFileName b c) = (a ++ "/" ++ c)%string /\
   getRelativeFileName (getRelativeFileName a b) c
   <> getRelativeFileName a (getRelativeFileName b c)).
Proof.
  split.
  - intros H. destruct a as [|x a]; [reflexivity|].
    destruct b as [|y b]; [destruct H as [H|H]; [discriminate H|contradiction H; reflexivity]|].
    cbn [getRelativeFileName]. 
    change (String x a ++ "/" ++ String y b)%string
      with (String x (a ++ String "/" (String y b)))%string.
    cbn [getRelativeFileName].
    change (String x (a ++ String "/" (String y b)))
      with (String x a ++ ("/" ++ String y b))%string.
    rewrite !append_assoc. reflexivity.
  - intros Ha ->. destruct a as [|x a]; [contradiction Ha; reflexivity|].
    assert (H1 : getRelativeFileName (getRelativeFileName (String x a) "") c
                 = (String x a ++ "//" ++ c)%string).
    { cbn [getRelativeFileName].
      change (String x a ++ "/" ++ "")%string with (String x (a ++ "/"))%string.
      cbn [getRelativeFileName].
      change (String x (a ++ "/")) with (String x a ++ "/")%string.
      rewrite append_assoc. reflexivity. }
    assert (H2 : getRelativeFileName (String x a) (getRelativeFileName "" c)
                 = (String x a ++ "/" ++ c)%string) by reflexivity.
    split; [exact H1|]. split; [exact H2|].
    rewrite H1, H2. intros H. apply append_cancel_l in H.
    apply (f_equal String.length) in H. cbn in H. lia.
Qed.

Lemma relative_file_name_nesting_witness :
  getRelativeFileName (getRelativeFileName "src" "core") "Engine.tsx"
  = "src/core/Engine.tsx" /\
  getRelativeFileName (getRelativeFileName "src" "") "Engine.tsx"
  = "src//Engine.tsx".
Proof.
  destruct (relative_file_name_nesting "src" "core" "Engine.tsx") as [Hassoc _].
  destruct (relative_file_name_nesting "src" "" "Engine.tsx") as [_ Hdouble].
  split.
  - rewrite Hassoc; [reflexivity|]. right. discriminate.
  - apply Hdouble; [discriminate|reflexivity].
Defined.

End HelpersFacts.
